(** * ak-energy-admin: [admin_util.py]

    A shallow embedding of the administrative helpers of [admin_util.py]
    (content-type inference, local directory cleanup, numeric sanitising and
    the S3 [Bucket] wrapper) together with the properties stated about them.

    Python strings are [string]s of 8-bit characters, Python integers are
    [Z], the module-level dict is a [gmap], and code that touches the local
    filesystem or the bucket runs in a state-and-exception monad over an
    explicit [world].  The library functions the module calls ([os.path],
    [fnmatch], [glob]) are embedded from CPython 3.11. *)

From Stdlib Require Import ZArith Ascii String List Bool Lia.
From Stdlib Require Import Floats.SpecFloat.
From stdpp Require Import base option list sorting gmap strings.

Local Open Scope Z_scope.

(* String concatenation unfolds on a constructor, as list append does. *)
#[local] Arguments String.append !_ _ / : simpl nomatch.

(** ** Python [str] methods used by the module *)

Module Str.

(** [s.startswith(p)]; also the meaning of S3's [Prefix] filter. *)
Fixpoint startswith (p s : string) : bool :=
  match p, s with
  | EmptyString, _ => true
  | String a p', String b s' => if Ascii.eqb a b then startswith p' s' else false
  | String _ _, EmptyString => false
  end.

(** [s.lstrip(c)] for a single character [c]. *)
Fixpoint lstrip (c : ascii) (s : string) : string :=
  match s with
  | EmptyString => EmptyString
  | String a r => if Ascii.eqb a c then lstrip c r else s
  end.

(** [s.rstrip(c)] for a single character [c]. *)
Fixpoint rstrip (c : ascii) (s : string) : string :=
  match s with
  | EmptyString => EmptyString
  | String a r =>
      match rstrip c r with
      | EmptyString => if Ascii.eqb a c then EmptyString else String a EmptyString
      | r' => String a r'
      end
  end.

(** [s.strip(c)]: leading and trailing occurrences of [c] removed. *)
Definition strip (c : ascii) (s : string) : string := rstrip c (lstrip c s).

(** [s.rfind(c)]: index of the last occurrence of [c], or [-1]. *)
Fixpoint rfind (c : ascii) (s : string) : Z :=
  match s with
  | EmptyString => -1
  | String a r =>
      let i := rfind c r in
      if 0 <=? i then i + 1 else if Ascii.eqb a c then 0 else -1
  end.

Fixpoint drop (n : nat) (s : string) : string :=
  match n, s with
  | O, _ => s
  | S n', String _ r => drop n' r
  | S _, EmptyString => EmptyString
  end.

Fixpoint take (n : nat) (s : string) : string :=
  match n, s with
  | O, _ => EmptyString
  | S n', String a r => String a (take n' r)
  | S _, EmptyString => EmptyString
  end.

(** Slices [s[i:]], [s[:j]] and [s[i:j]]; every use below has
    [0 <= i <= j], where Python's slice is exactly this. *)
Definition slice_from (s : string) (i : Z) : string := drop (Z.to_nat i) s.
Definition slice_to (s : string) (j : Z) : string := take (Z.to_nat j) s.
Definition slice (s : string) (i j : Z) : string :=
  take (Z.to_nat (j - i)) (drop (Z.to_nat i) s).

(** [c in s]. *)
Fixpoint contains (c : ascii) (s : string) : bool :=
  match s with
  | EmptyString => false
  | String a r => Ascii.eqb a c || contains c r
  end.

(** The part of [s] after the last occurrence of [c], if there is one. *)
Fixpoint after_last (c : ascii) (s : string) : option string :=
  match s with
  | EmptyString => None
  | String a r =>
      match after_last c r with
      | Some t => Some t
      | None => if Ascii.eqb a c then Some r else None
      end
  end.

(** Every character of [s] is [c]. *)
Fixpoint all_chars (c : ascii) (s : string) : bool :=
  match s with
  | EmptyString => true
  | String a r => Ascii.eqb a c && all_chars c r
  end.

End Str.

(** ** [os.path] (posixpath) *)

Module OsPath.

(** [genericpath._splitext]: the loop that skips the leading dots of the
    final component.  [fuel] is the number of iterations that remain,
    [dotIndex - filenameIndex]; running out of it is the loop's exit. *)
Fixpoint skip_leading_dots (fuel : nat) (p : string) (filenameIndex dotIndex : Z)
  : string * string :=
  match fuel with
  | O => (p, EmptyString)
  | S fuel' =>
      if negb (String.eqb (Str.slice p filenameIndex (filenameIndex + 1)) ".")
      then (Str.slice_to p dotIndex, Str.slice_from p dotIndex)
      else skip_leading_dots fuel' p (filenameIndex + 1) dotIndex
  end.

(** [os.path.splitext(p)]. *)
Definition splitext (p : string) : string * string :=
  let sepIndex := Str.rfind "/" p in
  let dotIndex := Str.rfind "." p in
  if sepIndex <? dotIndex then
    let filenameIndex := sepIndex + 1 in
    skip_leading_dots (Z.to_nat (dotIndex - filenameIndex)) p filenameIndex dotIndex
  else (p, EmptyString).

(** [os.path.basename(p)]: [p[p.rfind('/') + 1:]]. *)
Definition basename (p : string) : string :=
  let i := Str.rfind "/" p + 1 in
  Str.slice_from p i.

(** [os.path.join(a, b)] for a relative [b]. *)
Definition ends_with_sep (a : string) : bool :=
  match Str.rstrip "/" a, a with
  | _, EmptyString => false
  | r, _ => negb (String.eqb r a)
  end.

Definition join (a b : string) : string :=
  if Str.startswith "/" b then b
  else if String.eqb a "" || ends_with_sep a then a +:+ b
  else a +:+ "/" +:+ b.

(** [os.path.split(p)]: the head loses its trailing slashes unless it is
    made of slashes only. *)
Definition split (p : string) : string * string :=
  let i := Str.rfind "/" p + 1 in
  let head := Str.slice_to p i in
  let tail := Str.slice_from p i in
  (if negb (String.eqb head "") && negb (Str.all_chars "/" head)
   then Str.rstrip "/" head else head, tail).

End OsPath.

(** ** [content_type] *)

(** Maps file extensions to MIME Content-Type. *)
Definition content_type_map : gmap string string :=
  list_to_map
    [ ("html", "text/html");
      ("csv", "text/csv");
      ("txt", "text/plain");
      ("xlsx", "application/vnd.openxmlformats-officedocument.spreadsheetml.sheet");
      ("pkl", "application/octet-stream") ].

Definition content_type (file_name : string) : string :=
  let ext := Str.strip "." (snd (OsPath.splitext file_name)) in
  default "application/octet-stream" (content_type_map !! ext).

(** ** Exceptions and [chg_nonnum] *)

(** The exceptions that reach a caller of this module: the builtin ones
    raised by [math.isnan], [open] and [os.remove] ([OSError] carries the
    name of its [errno] where Python has no subclass for it), botocore's
    [ParamValidationError], raised before a request is sent, and botocore's
    [ClientError] with the error code of the response. *)
Inductive exn : Type :=
  | TypeError
  | OverflowError
  | ValueError
  | FileNotFoundError
  | IsADirectoryError
  | NotADirectoryError
  | PermissionError
  | OSError (errno : string)
  | ParamValidationError
  | ClientError (code : string).

(** Python values a caller hands to [chg_nonnum]. *)
Inductive pyval : Type :=
  | PyNone
  | PyBool (b : bool)
  | PyInt (n : Z)
  | PyFloat (x : spec_float)
  | PyComplex (re im : spec_float)
  | PyStr (s : string).

(** [isinstance(val, numbers.Number)]: [bool] is a subclass of [int], and
    [int], [float] and [complex] are registered numbers. *)
Definition is_Number (val : pyval) : bool :=
  match val with
  | PyBool _ | PyInt _ | PyFloat _ | PyComplex _ _ => true
  | PyNone | PyStr _ => false
  end.

(** An [int] converts to a double by rounding to 53 bits, half to even; it
    is too large when the rounded value reaches [2^1024]. *)
Definition int_too_large_for_float (n : Z) : bool :=
  2 ^ 1024 - 2 ^ 970 <=? Z.abs n.

(** [math.isnan(val)]: the argument is first converted to a C double. *)
Definition math_isnan (val : pyval) : exn + bool :=
  match val with
  | PyFloat S754_nan => inr true
  | PyFloat _ => inr false
  | PyBool _ => inr false
  | PyInt n => if int_too_large_for_float n then inl OverflowError else inr false
  | PyComplex _ _ | PyNone | PyStr _ => inl TypeError
  end.

Definition chg_nonnum (val sub_val : pyval) : exn + pyval :=
  if is_Number val then
    match math_isnan val with
    | inl e => inl e
    | inr true => inr sub_val
    | inr false => inr val
    end
  else inr sub_val.

(** ** The world: local files, the bucket, standard output *)

Inductive node : Type :=
  | RegFile (data : string)
  | Directory.

Record s3object : Type := S3Object { body : string; ContentType : string }.

(** What the program asks of its environment. *)
Inductive request : Type :=
  | FsOpen (path : string)
  | FsRemove (path : string)
  | S3ListObjects (prefix : string)
  | S3PutObject (key : string)
  | S3DeleteObject (key : string)
  | S3CopyObject (src dst : string).

(** [files] lists every filesystem entry under its path, in the order the
    operating system enumerates them; a path is the text by which the
    program reaches the entry, and an entry [d/name] stands for the entry
    [name] of the directory [d].  [objects] is the content of the one
    bucket the [Bucket] instance is bound to; [journal] records the requests
    the environment has carried out, oldest first. *)
Record world : Type := World {
  files : list (string * node);
  objects : gmap string s3object;
  stdout : list string;
  journal : list request
}.

Definition set_files (f : list (string * node)) (w : world) : world :=
  {| files := f; objects := objects w; stdout := stdout w; journal := journal w |}.
Definition set_objects (o : gmap string s3object) (w : world) : world :=
  {| files := files w; objects := o; stdout := stdout w; journal := journal w |}.
Definition log_request (r : request) (w : world) : world :=
  {| files := files w; objects := objects w; stdout := stdout w;
     journal := journal w ++ [r] |}.

(** ** Statements that may raise: state and exception monad *)

Definition M (A : Type) : Type := world → (exn + A) * world.

#[global] Instance M_ret : MRet M := λ A a w, (inr a, w).
#[global] Instance M_bind : MBind M := λ A B k m w,
  match m w with
  | (inr a, w') => k a w'
  | (inl e, w') => (inl e, w')
  end.

(** [for x in xs: body(x)]. *)
Fixpoint for_each {A : Type} (xs : list A) (body : A → M unit) : M unit :=
  match xs with
  | [] => mret ()
  | x :: xs' => body x ;; for_each xs' body
  end.

(** [print(line)]. *)
Definition print (line : string) : M unit := λ w,
  (inr (), {| files := files w; objects := objects w;
              stdout := stdout w ++ [line]; journal := journal w |}).

Definition fs_lookup (fs : list (string * node)) (path : string) : option node :=
  snd <$> List.find (λ e, String.eqb (fst e) path) fs.

Definition fs_delete (fs : list (string * node)) (path : string) : list (string * node) :=
  List.filter (λ e, negb (String.eqb (fst e) path)) fs.

(** ** [fnmatch] *)

(** [fnmatch.translate] turns a shell pattern into a regular expression
    and [re] matches names against it.  [translate] below follows the
    function piece by piece and yields the pieces of the expression;
    [matches] is what the compiled expression decides. *)
Module Fnmatch.

(** [s.find(c, k)]. *)
Fixpoint find_from (c : ascii) (k : nat) (s : string) : option nat :=
  match s with
  | EmptyString => None
  | String a r =>
      match k with
      | O => if Ascii.eqb a c then Some O else S <$> find_from c O r
      | S k' => S <$> find_from c k' r
      end
  end.

Definition first_char (s : string) : option ascii := String.get 0 s.
Definition last_char (s : string) : option ascii := String.get (String.length s - 1) s.

(** What [translate] hands to [re] between the brackets of a character
    set: characters (escaped where [re] would read them otherwise) and the
    unescaped [-] that joins two chunks. *)
Inductive atom : Type :=
  | Chr (c : ascii)
  | Dash.

(** The pieces of the regular expression [translate] builds. *)
Inductive token : Type :=
  | Star
  | AnyChar
  | Lit (c : ascii)
  | Never
  | CharSet (negate : bool) (atoms : list atom).

(** The index of the [']'] that closes the set whose content starts [s]. *)
Definition set_end (s : string) : option nat :=
  let j := if Str.startswith "!" s then 1%nat else 0%nat in
  let j := if bool_decide (String.get j s = Some "]"%char) then S j else j in
  find_from "]" j s.

(** The loop that cuts [stuff] at the hyphens that make ranges; the last
    chunk may be empty.  [i] and [k] are the indices of the source, counted
    from the start of [stuff]; [fuel] bounds the turns ([k] grows by three
    at each). *)
Fixpoint split_ranges (fuel : nat) (stuff : string) (i k : nat) : list string :=
  match fuel with
  | O => []
  | S fuel' =>
      match find_from "-" k stuff with
      | Some k' =>
          Str.take (k' - i) (Str.drop i stuff)
          :: split_ranges fuel' stuff (k' + 1) (k' + 3)
      | None => [Str.drop i stuff]
      end
  end.

(** [if chunk: chunks.append(chunk) else: chunks[-1] += '-']. *)
Fixpoint close_chunks (chunks : list string) : list string :=
  match chunks with
  | [] => []
  | [c; EmptyString] => [c +:+ "-"]
  | c :: rest => c :: close_chunks rest
  end.

(** "Remove empty ranges -- invalid in RE": from the last pair of chunks to
    the first. *)
Fixpoint remove_empty_ranges (chunks : list string) : list string :=
  match chunks with
  | [] => []
  | c :: rest =>
      match remove_empty_ranges rest with
      | [] => [c]
      | r :: rs =>
          match last_char c, first_char r with
          | Some a, Some b =>
              if (N_of_ascii b <? N_of_ascii a)%N
              then (Str.take (String.length c - 1) c +:+ Str.drop 1 r) :: rs
              else c :: r :: rs
          | _, _ => c :: r :: rs
          end
      end
  end.

Definition chars (s : string) : list atom := Chr <$> list_ascii_of_string s.

(** ['-'.join(...)] of the escaped chunks. *)
Fixpoint join_chunks (chunks : list string) : list atom :=
  match chunks with
  | [] => []
  | [c] => chars c
  | c :: rest => chars c ++ Dash :: join_chunks rest
  end.

Definition set_atoms (stuff : string) : list atom :=
  if Str.contains "-" stuff then
    let k := if Str.startswith "!" stuff then 2%nat else 1%nat in
    join_chunks
      (remove_empty_ranges
         (close_chunks (split_ranges (S (String.length stuff)) stuff 0 k)))
  else chars stuff.

Definition set_token (stuff : string) : token :=
  match set_atoms stuff with
  | [] => Never
  | [Chr "!"] => AnyChar
  | Chr "!" :: atoms => CharSet true atoms
  | atoms => CharSet false atoms
  end.

(** "compress consecutive [*] into one". *)
Definition add_star (res : list token) : list token :=
  match res with
  | Star :: _ => res
  | _ => Star :: res
  end.

(** [translate(pat)]; [fuel] bounds the characters still to be read (the
    loop reads at least one at every turn). *)
Fixpoint translate (fuel : nat) (pat : string) : list token :=
  match fuel, pat with
  | O, _ | _, EmptyString => []
  | S fuel', String c rest =>
      if Ascii.eqb c "*" then add_star (translate fuel' rest)
      else if Ascii.eqb c "?" then AnyChar :: translate fuel' rest
      else if Ascii.eqb c "[" then
        match set_end rest with
        | None => Lit "[" :: translate fuel' rest
        | Some j =>
            set_token (Str.take j rest) :: translate fuel' (Str.drop (S j) rest)
        end
      else Lit c :: translate fuel' rest
  end.

(** How [re] reads the content of a set: a character followed by an
    unescaped [-] and another character is a range. *)
Definition atom_char (a : atom) : ascii :=
  match a with
  | Chr c => c
  | Dash => "-"
  end.

Fixpoint parse_set (atoms : list atom) : list (ascii * ascii) :=
  match atoms with
  | [] => []
  | this :: rest =>
      match rest with
      | [Dash] => [(atom_char this, atom_char this); ("-", "-")]%char
      | Dash :: that :: rest' => (atom_char this, atom_char that) :: parse_set rest'
      | _ => (atom_char this, atom_char this) :: parse_set rest
      end
  end.

Definition in_ranges (c : ascii) (ranges : list (ascii * ascii)) : bool :=
  existsb (λ r, (N_of_ascii (fst r) <=? N_of_ascii c)%N
                && (N_of_ascii c <=? N_of_ascii (snd r))%N) ranges.

Definition token_matches (t : token) (c : ascii) : bool :=
  match t with
  | AnyChar => true
  | Lit a => Ascii.eqb a c
  | CharSet negate atoms => xorb negate (in_ranges c (parse_set atoms))
  | Star | Never => false
  end.

(** The whole of [s] matches the pieces, which is what the expression
    [(?s:...)\Z] asks.  [translate] wraps a star and the pieces up to the
    next star in a group that is not re-entered; every piece other than a
    star takes exactly one character, so the first place where such a
    group fits serves as well as any later one, and the names matched are
    those of the plain reading of [.*] used here. *)
Fixpoint matches (toks : list token) (s : string) : bool :=
  match toks with
  | [] => String.eqb s ""
  | Star :: toks' =>
      (fix star (s : string) : bool :=
         matches toks' s
         || match s with
            | EmptyString => false
            | String _ r => star r
            end) s
  | t :: toks' =>
      match s with
      | EmptyString => false
      | String c r => token_matches t c && matches toks' r
      end
  end.

(** [fnmatch.fnmatch(name, pat)] on a POSIX system. *)
Definition fnmatch (name pat : string) : bool :=
  matches (translate (String.length pat) pat) name.

End Fnmatch.

(** ** [glob] *)

Module Glob.

(** [has_magic(s)]. *)
Definition has_magic (s : string) : bool :=
  Str.contains "*" s || Str.contains "?" s || Str.contains "[" s.

(** [_ishidden(path)], for the names and patterns [glob] gives it, which
    are not empty. *)
Definition ishidden (path : string) : bool := Str.startswith "." path.

(** [os.path.lexists(path)] and [os.path.isdir(path)]. *)
Definition lexists (fs : list (string * node)) (path : string) : bool :=
  bool_decide (is_Some (fs_lookup fs path)).

Definition isdir (fs : list (string * node)) (path : string) : bool :=
  match fs_lookup fs path with
  | Some Directory => true
  | _ => false
  end.

(** [_join(dirname, basename)]. *)
Definition join (dirname basename : string) : string :=
  if String.eqb dirname "" then basename
  else if String.eqb basename "" then dirname
  else OsPath.join dirname basename.

(** The name under which [path] is an entry of the directory [dirname]
    (of the current directory when [dirname] is empty). *)
Definition entry_name (dirname path : string) : option string :=
  let prefix := OsPath.join dirname "" in
  let name := Str.drop (String.length prefix) path in
  if Str.startswith prefix path && negb (String.eqb name "")
     && negb (Str.contains "/" name)
  then Some name else None.

(** [_listdir(dirname, dir_fd, dironly)]. *)
Definition listdir (fs : list (string * node)) (dirname : string) (dironly : bool)
  : list string :=
  omap (λ e, name ← entry_name dirname (fst e);
             if dironly && negb (match snd e with Directory => true | _ => false end)
             then None else Some name) fs.

(** [_glob1] and [_glob0]: the names in a literal directory that match a
    pattern, and the literal name if it exists there. *)
Definition glob1 (fs : list (string * node)) (dirname pattern : string)
    (dironly : bool) : list string :=
  let names := listdir fs dirname dironly in
  let names := if negb (ishidden pattern)
               then List.filter (λ x, negb (ishidden x)) names else names in
  List.filter (λ name, Fnmatch.fnmatch name pattern) names.

Definition glob0 (fs : list (string * node)) (dirname basename : string)
    (dironly : bool) : list string :=
  if negb (String.eqb basename "") then
    if lexists fs (join dirname basename) then [basename] else []
  else if isdir fs dirname then [basename] else [].

(** [_iglob(pathname, root_dir, dir_fd, recursive, dironly)] with an empty
    [root_dir] and [recursive=False]; [fuel] bounds the depth of the
    recursion on the directory part, which gets shorter at every call. *)
Fixpoint iglob (fuel : nat) (fs : list (string * node)) (pathname : string)
    (dironly : bool) : list string :=
  match fuel with
  | O => []
  | S fuel' =>
      let '(dirname, basename) := OsPath.split pathname in
      if negb (has_magic pathname) then
        if negb (String.eqb basename "") then
          if lexists fs pathname then [pathname] else []
        else if isdir fs dirname then [pathname] else []
      else if String.eqb dirname "" then glob1 fs "" basename dironly
      else
        let dirs :=
          if negb (String.eqb dirname pathname) && has_magic dirname
          then iglob fuel' fs dirname true
          else [dirname] in
        let glob_in_dir := if has_magic basename then glob1 else glob0 in
        flat_map (λ dirname,
                    OsPath.join dirname <$> glob_in_dir fs dirname basename dironly)
          dirs
  end.

End Glob.

(** [glob(pattern)]: the paths that match, in enumeration order.  A
    directory that is missing or unreadable has no entries. *)
Definition glob_paths (pattern : string) (fs : list (string * node)) : list string :=
  Glob.iglob (S (String.length pattern)) fs pattern false.

(** The directory [glob] lists for the pattern [os.path.join(dir_path, '*')]:
    [dir_path] without its trailing slashes. *)
Definition glob_dir (dir_path : string) : string :=
  fst (OsPath.split (OsPath.join dir_path "*")).

(** [path] is an entry of the directory [dirname] and is not hidden. *)
Definition visible_entry (dirname path : string) : bool :=
  match Glob.entry_name dirname path with
  | Some name => negb (Glob.ishidden name)
  | None => false
  end.

(** A name that [*] matches: one path component, not hidden. *)
Definition star_matches (name : string) : bool :=
  negb (String.eqb name "") && negb (Str.contains "/" name)
  && negb (Str.startswith "." name).

Definition glob (pattern : string) : M (list string) := λ w,
  (inr (glob_paths pattern (files w)), w).

(** [os.path.isfile(path)]. *)
Definition os_path_isfile (path : string) : M bool := λ w,
  (inr (match fs_lookup (files w) path with Some (RegFile _) => true | _ => false end), w).

(** The keys of the bucket in the order S3 lists them (byte order). *)
Definition sorted_keys (o : gmap string s3object) : list string :=
  merge_sort String.le (fst <$> map_to_list o).

Module Env.

(** The walk along the components of a path that names no entry, as the
    kernel resolves it: [seen] is the part already resolved, [comp] the
    component being read.  [NAME_MAX] is 255. *)
Fixpoint walk (fs : list (string * node)) (seen comp rest : string) : exn :=
  match rest with
  | EmptyString =>
      if String.eqb comp "" || String.eqb comp "." || String.eqb comp ".."
      then if String.eqb seen "" && String.eqb comp "" then FileNotFoundError
           else IsADirectoryError
      else if (255 <? String.length comp)%nat then OSError "ENAMETOOLONG"
      else FileNotFoundError
  | String c rest' =>
      if Ascii.eqb c "/" then
        if String.eqb comp "" || String.eqb comp "." || String.eqb comp ".."
        then walk fs (seen +:+ comp +:+ "/") "" rest'
        else if (255 <? String.length comp)%nat then OSError "ENAMETOOLONG"
        else match fs_lookup fs (seen +:+ comp) with
             | Some Directory => walk fs (seen +:+ comp +:+ "/") "" rest'
             | Some (RegFile _) => NotADirectoryError
             | None => FileNotFoundError
             end
      else walk fs seen (comp +:+ String c "") rest'
  end.

(** What [open] and [os.remove] raise for a path that names no entry:
    [ValueError] for an embedded null byte, [OSError] for a path of
    [PATH_MAX] (4096) bytes or more, else what the walk finds. *)
Definition path_error (fs : list (string * node)) (path : string) : exn :=
  if Str.contains Ascii.zero path then ValueError
  else if (4096 <=? String.length path)%nat then OSError "ENAMETOOLONG"
  else walk fs "" "" path.

Section Faults.

(** [denies j r]: after the requests [j], the environment refuses [r]
    (permissions, quota, network). *)
Variable denies : list request → request → bool.

Definition refused (r : request) (w : world) : bool := denies (journal w) r.

(** [open(path, 'rb')], returning the content that will be read. *)
Definition open_rb (path : string) : M string := λ w,
  match fs_lookup (files w) path with
  | None => (inl (path_error (files w) path), w)
  | Some Directory => (inl IsADirectoryError, w)
  | Some (RegFile data) =>
      if refused (FsOpen path) w then (inl PermissionError, w)
      else (inr data, log_request (FsOpen path) w)
  end.

(** [os.remove(path)]. *)
Definition os_remove (path : string) : M unit := λ w,
  match fs_lookup (files w) path with
  | None => (inl (path_error (files w) path), w)
  | Some Directory => (inl IsADirectoryError, w)
  | Some (RegFile _) =>
      if refused (FsRemove path) w then (inl PermissionError, w)
      else (inr (), log_request (FsRemove path)
                      (set_files (fs_delete (files w) path) w))
  end.

(** [bucket.put_object(Key=key, Body=data, ContentType=cnt_typ)]; botocore
    validates the parameters before it sends anything, and a key has at
    least one character. *)
Definition put_object (key data cnt_typ : string) : M unit := λ w,
  if String.eqb key "" then (inl ParamValidationError, w)
  else if refused (S3PutObject key) w then (inl (ClientError "AccessDenied"), w)
  else (inr (), log_request (S3PutObject key)
                  (set_objects (<[key := S3Object data cnt_typ]> (objects w)) w)).

(** Iterating [bucket.objects.filter(Prefix=prefix)]: the keys that start
    with [prefix], as one listing taken when the loop starts (boto3 fetches
    the listing a page of 1000 keys at a time; a listing of one page is
    what is modelled). *)
Definition objects_filter (prefix : string) : M (list string) := λ w,
  if refused (S3ListObjects prefix) w then (inl (ClientError "AccessDenied"), w)
  else (inr (List.filter (Str.startswith prefix) (sorted_keys (objects w))),
        log_request (S3ListObjects prefix) w).

(** [obj.delete()]; deleting a key that is absent succeeds. *)
Definition delete_object (key : string) : M unit := λ w,
  if refused (S3DeleteObject key) w then (inl (ClientError "AccessDenied"), w)
  else (inr (), log_request (S3DeleteObject key)
                  (set_objects (delete key (objects w)) w)).

(** [s3.Object(bucket, dst).copy_from(CopySource=bucket/src)]; S3 rejects
    the copy of an object onto itself when nothing about it changes. *)
Definition copy_from (dst src : string) : M unit := λ w,
  if refused (S3CopyObject src dst) w then (inl (ClientError "AccessDenied"), w)
  else match objects w !! src with
       | None => (inl (ClientError "NoSuchKey"), w)
       | Some o =>
           if String.eqb src dst then (inl (ClientError "InvalidRequest"), w)
           else (inr (), log_request (S3CopyObject src dst)
                           (set_objects (<[dst := o]> (objects w)) w))
       end.

End Faults.
End Env.

(** ** [clear_dir] (module level) *)

Section LocalFiles.

Variable denies : list request → request → bool.

(** The body of the loop of [clear_dir]. *)
Definition clear_dir_body (fn : string) : M unit :=
  isfile ← os_path_isfile fn;
  if (isfile : bool) then
    print ("deleting " +:+ fn);;
    Env.os_remove denies fn
  else mret ().

Definition clear_dir (dir_path : string) : M unit :=
  fns ← glob (OsPath.join dir_path "*");
  for_each fns clear_dir_body.

End LocalFiles.

(** ** [class Bucket] *)

Module Bucket.
Section Methods.

Variable denies : list request → request → bool.

(** [self.bucket_name]; [self.s3] and [self.bucket] are the [objects]
    of the world. *)
Variable bucket_name : string.

Definition upload_file (file_path dest_key : string) : M unit :=
  let cnt_typ := content_type file_path in
  data ← Env.open_rb denies file_path;
  Env.put_object denies dest_key data cnt_typ;;
  print ("uploaded " +:+ file_path +:+ " with Content Type: " +:+ cnt_typ).

(** The body of the loop of [clear_dir]. *)
Definition clear_dir_body (key : string) : M unit :=
  print ("deleting " +:+ key);;
  Env.delete_object denies key.

Definition clear_dir (dir_to_clear : string) : M unit :=
  let dir_to_clear := Str.strip "/" dir_to_clear in
  objs ← Env.objects_filter denies dir_to_clear;
  for_each objs clear_dir_body.

(** The body of the loop of [upload_dir]. *)
Definition upload_dir_body (dest_dir fn : string) : M unit :=
  let base_name := OsPath.basename fn in
  let dest_key := dest_dir +:+ "/" +:+ base_name in
  upload_file fn dest_key.

Definition upload_dir (src_dir_local dest_dir : string) (clear_dest_dir : bool) : M unit :=
  let dest_dir := Str.strip "/" dest_dir in
  (if clear_dest_dir then clear_dir dest_dir else mret ());;
  fns ← glob (OsPath.join src_dir_local "*");
  for_each fns (upload_dir_body dest_dir).

(** The body of the loop of [move_files]. *)
Definition move_files_body (src_dir dest_dir key : string) : M unit :=
  if String.eqb (Str.strip "/" key) src_dir then mret ()
  else
    let base_name := OsPath.basename key in
    let src := bucket_name +:+ "/" +:+ key in
    print ("copying " +:+ src);;
    Env.copy_from denies (dest_dir +:+ "/" +:+ base_name) key;;
    Env.delete_object denies key.

Definition move_files (src_dir dest_dir : string) (clear_dest : bool) : M unit :=
  let src_dir := Str.strip "/" src_dir in
  let dest_dir := Str.strip "/" dest_dir in
  (if clear_dest then clear_dir dest_dir else mret ());;
  objs ← Env.objects_filter denies src_dir;
  for_each objs (move_files_body src_dir dest_dir).

End Methods.
End Bucket.

(** ** The specification's wording *)

Module Spec.

(** "the final path segment". *)
Definition final_segment (f : string) : string :=
  default f (Str.after_last "/" f).

(** "substring after the last [.] in the final path segment; empty string
    if none". *)
Definition extension (f : string) : string :=
  default "" (Str.after_last "." (final_segment f)).

(** "looks it up case-sensitively in the fixed mapping, returns the mapped
    MIME type or the fallback". *)
Definition resolve (f : string) : string :=
  default "application/octet-stream" (content_type_map !! extension f).

(** "under [prefix/]". *)
Definition under (prefix key : string) : bool :=
  Str.startswith (prefix +:+ "/") key.

(** "for every object initially under [a/], after the call an object with
    the same basename exists under [b/] and no object remains under
    [a/]". *)
Definition moved (a b : string) (before after : gmap string s3object) : Prop :=
  (∀ k, under a k = true → is_Some (before !! k) →
        ∃ k', under b k' = true
              ∧ OsPath.basename k' = OsPath.basename k
              ∧ is_Some (after !! k'))
  ∧ (∀ k, under a k = true → after !! k = None).


End Spec.

(** The extension [content_type] looks up: the one of the final segment once
    its leading dots are set aside. *)
Definition extension_past_leading_dots (f : string) : string :=
  default "" (Str.after_last "." (Str.lstrip "." (Spec.final_segment f))).

(** ** The bucket after a loop has run to its end *)

(** The objects left when the keys [ks] have been deleted in turn. *)
Fixpoint delete_keys (ks : list string) (o : gmap string s3object)
  : gmap string s3object :=
  match ks with
  | [] => o
  | k :: ks' => delete_keys ks' (delete k o)
  end.

(** The key [move_files] copies [key] to. *)
Definition dest_key (dest_dir key : string) : string :=
  dest_dir +:+ "/" +:+ OsPath.basename key.

(** The test that makes [move_files] skip a key: stripped of slashes it is
    the source prefix itself (the directory marker). *)
Definition is_marker (src_dir key : string) : bool :=
  String.eqb (Str.strip "/" key) src_dir.

(** The objects left when the key [k] has had its turn in [move_files],
    and when the keys [ks] have had theirs. *)
Definition move_step (src_dir dest_dir k : string) (o : gmap string s3object)
  : gmap string s3object :=
  if is_marker src_dir k then o
  else match o !! k with
       | Some obj => delete k (<[dest_key dest_dir k := obj]> o)
       | None => o
       end.

Fixpoint move_keys (src_dir dest_dir : string) (ks : list string)
    (o : gmap string s3object) : gmap string s3object :=
  match ks with
  | [] => o
  | k :: ks' => move_keys src_dir dest_dir ks' (move_step src_dir dest_dir k o)
  end.

(** The requests and the output lines one key of the listing gives rise
    to in [move_files]. *)
Definition move_requests (src_dir dest_dir key : string) : list request :=
  if is_marker src_dir key then []
  else [S3CopyObject key (dest_key dest_dir key); S3DeleteObject key].

Definition move_prints (bucket_name src_dir key : string) : list string :=
  if is_marker src_dir key then []
  else ["copying " +:+ bucket_name +:+ "/" +:+ key].

(** No request is ever refused. *)
Definition never_denies (denies : list request → request → bool) : Prop :=
  ∀ j r, denies j r = false.

(** ** Error kinds of the specification *)

(** The specification's [TransferError], "remote read/write/copy/delete
    fails".  The module defines no exception class; the failure of a bucket
    call reaches the caller as botocore's [ClientError]. *)
Definition TransferError (e : exn) : bool :=
  match e with
  | ClientError _ => true
  | _ => false
  end.

(** "the local file cannot be read": it is missing, is a directory, or the
    environment refuses to open it. *)
Definition cannot_be_read (denies : list request → request → bool)
    (w : world) (path : string) : bool :=
  match fs_lookup (files w) path with
  | Some (RegFile _) => denies (journal w) (FsOpen path)
  | _ => true
  end.

(** ** Sample worlds *)

(** An environment that refuses nothing. *)
Definition no_faults : list request → request → bool := λ _ _, false.

(** An environment that refuses to delete the key [k] and nothing else. *)
Definition deny_delete (k : string) : list request → request → bool :=
  λ _ r, match r with
         | S3DeleteObject k' => String.eqb k' k
         | _ => false
         end.

(** A bucket with a folder [a/] (marker, a file, a nested file), a key that
    merely starts with [a], and an unrelated key. *)
Definition sample_bucket : gmap string s3object :=
  list_to_map
    [ ("a/", S3Object "" "application/x-directory");
      ("a/x.csv", S3Object "1,2" "text/csv");
      ("a/sub/y.txt", S3Object "y" "text/plain");
      ("ab/z.csv", S3Object "3,4" "text/csv");
      ("z.txt", S3Object "z" "text/plain") ].

(** A local directory [out] with a file, a hidden file and a subdirectory
    that holds one file. *)
Definition sample_files : list (string * node) :=
  [ ("out", Directory);
    ("out/a.txt", RegFile "A");
    ("out/.gitignore", RegFile "*");
    ("out/b", Directory);
    ("out/b/c.txt", RegFile "C") ].


(** A directory whose name holds a bracket, next to a directory whose name
    that bracket expression matches. *)
Definition bracket_files : list (string * node) :=
  [ ("dat[a]", Directory);
    ("dat[a]/a.txt", RegFile "A");
    ("data", Directory);
    ("data/b.txt", RegFile "B") ].

Definition sample_world : world :=
  {| files := sample_files; objects := sample_bucket; stdout := []; journal := [] |}.


Definition bracket_world : world :=
  {| files := bracket_files; objects := ∅; stdout := []; journal := [] |}.

(** * Properties *)

(** ** Strings *)

Module StrFacts.
Import Str.

Lemma append_assoc s t u : (s +:+ t) +:+ u = s +:+ (t +:+ u).
Proof. induction s as [|a s IH]; simpl; congruence. Qed.

Lemma length_append s t :
  String.length (s +:+ t) = (String.length s + String.length t)%nat.
Proof. induction s as [|a s IH]; simpl; congruence. Qed.

Lemma drop_append s t : drop (String.length s) (s +:+ t) = t.
Proof. induction s as [|a s IH]; simpl; auto. Qed.

Lemma take_append s t : take (String.length s) (s +:+ t) = s.
Proof. induction s as [|a s IH]; simpl; congruence. Qed.

Lemma startswith_append p s : startswith p (p +:+ s) = true.
Proof.
  induction p as [|a p IH]; simpl; [reflexivity|].
  by rewrite Ascii.eqb_refl.
Qed.

Lemma startswith_split p s :
  startswith p s = true → s = p +:+ drop (String.length p) s.
Proof.
  revert s; induction p as [|a p IH]; intros [|b s]; simpl; try done.
  destruct (Ascii.eqb_spec a b) as [->|]; [|done].
  intros H. f_equal. by apply IH.
Qed.

Lemma startswith_trans p q s :
  startswith p q = true → startswith q s = true → startswith p s = true.
Proof.
  revert q s; induction p as [|a p IH]; intros [|b q] [|c s]; simpl; try done.
  destruct (Ascii.eqb_spec a b) as [->|]; [|done].
  destruct (Ascii.eqb_spec b c) as [->|]; [|done].
  apply IH.
Qed.

Lemma contains_append c s t :
  contains c (s +:+ t) = contains c s || contains c t.
Proof.
  induction s as [|a s IH]; simpl; [reflexivity|].
  by rewrite IH, orb_assoc.
Qed.

Lemma lstrip_absent c s : contains c s = false → lstrip c s = s.
Proof.
  destruct s as [|a s]; simpl; [done|].
  destruct (Ascii.eqb a c); simpl; done.
Qed.

Lemma rstrip_absent c s : contains c s = false → rstrip c s = s.
Proof.
  induction s as [|a s IH]; simpl; [done|].
  destruct (Ascii.eqb a c); simpl; [done|].
  intros H. rewrite (IH H). by destruct s.
Qed.

Lemma lstrip_all c s : all_chars c s = true → lstrip c s = "".
Proof.
  induction s as [|a s IH]; simpl; [done|].
  destruct (Ascii.eqb a c); simpl; [exact IH|done].
Qed.

Lemma strip_all c s : all_chars c s = true → strip c s = "".
Proof. intros H. unfold strip. by rewrite (lstrip_all _ _ H). Qed.

Lemma after_last_absent c s : contains c s = false → after_last c s = None.
Proof.
  induction s as [|a s IH]; simpl; [done|].
  destruct (Ascii.eqb a c); simpl; [done|].
  intros H. by rewrite (IH H).
Qed.

Lemma after_last_append c u t :
  contains c t = false → after_last c (u +:+ String c t) = Some t.
Proof.
  intros Ht. induction u as [|a u IH]; simpl.
  - by rewrite (after_last_absent _ _ Ht), Ascii.eqb_refl.
  - by rewrite IH.
Qed.

Lemma rfind_lt c s : (rfind c s < Z.of_nat (String.length s))%Z ∧ (-1 ≤ rfind c s)%Z.
Proof.
  induction s as [|a s [IH1 IH2]]; simpl String.length; simpl rfind; [lia|].
  destruct (Z.leb_spec 0 (rfind c s)); [lia|].
  destruct (Ascii.eqb a c); lia.
Qed.

Lemma rfind_absent c s : contains c s = false → rfind c s = (-1)%Z.
Proof.
  induction s as [|a s IH]; simpl; [done|].
  destruct (Ascii.eqb a c); simpl; [done|].
  intros H. by rewrite (IH H).
Qed.

Lemma rfind_append_last c u t :
  contains c t = false →
  rfind c (u +:+ String c t) = Z.of_nat (String.length u).
Proof.
  intros Ht. induction u as [|a u IH].
  - simpl. by rewrite (rfind_absent _ _ Ht), Ascii.eqb_refl.
  - simpl String.length. simpl rfind. rewrite IH.
    destruct (Z.leb_spec 0 (Z.of_nat (String.length u))); lia.
Qed.

Lemma rfind_append_absent c u t :
  contains c t = false → rfind c (u +:+ t) = rfind c u.
Proof.
  intros Ht. induction u as [|a u IH]; simpl.
  - by apply rfind_absent.
  - by rewrite IH.
Qed.

(** A string either lacks [c] or splits around its last occurrence. *)
Lemma split_at_last c s :
  contains c s = false ∨
  ∃ u t, s = u +:+ String c t ∧ contains c t = false.
Proof.
  induction s as [|a s IH]; [by left|].
  destruct IH as [H|(u & t & -> & Ht)].
  - destruct (Ascii.eqb_spec a c) as [->|Hne].
    + right. by exists "", s.
    + left. simpl. rewrite H. by destruct (Ascii.eqb_spec a c).
  - right. by exists (String a u), t.
Qed.

End StrFacts.
(** ** [content_type] *)

Section ContentType.
Import Str StrFacts.

Lemma final_segment_split p :
  ∃ dir, p = dir +:+ Spec.final_segment p
         ∧ contains "/" (Spec.final_segment p) = false
         ∧ rfind "/" p = (Z.of_nat (String.length dir) - 1)%Z.
Proof.
  unfold Spec.final_segment.
  destruct (split_at_last "/" p) as [H|(u & t & -> & Ht)].
  - exists "". rewrite (after_last_absent _ _ H), (rfind_absent _ _ H). done.
  - exists (u +:+ "/"). rewrite (after_last_append _ _ _ Ht), (rfind_append_last _ _ _ Ht).
    rewrite append_assoc, length_append. simpl. split_and!; [done..|lia].
Qed.

(** The loop of [_splitext] gives up exactly when only dots precede the
    last dot of the final component. *)
Lemma skip_leading_dots_spec u : ∀ pre rest,
  OsPath.skip_leading_dots (String.length u) (pre +:+ u +:+ rest)
    (Z.of_nat (String.length pre))
    (Z.of_nat (String.length pre + String.length u))
  = if all_chars "." u then (pre +:+ u +:+ rest, "")
    else (take (String.length pre + String.length u) (pre +:+ u +:+ rest),
          drop (String.length pre + String.length u) (pre +:+ u +:+ rest)).
Proof.
  induction u as [|a u IH]; intros pre rest; [done|].
  simpl String.length. simpl OsPath.skip_leading_dots.
  unfold slice.
  replace (Z.of_nat (String.length pre) + 1 - Z.of_nat (String.length pre))%Z
    with 1%Z by lia.
  rewrite Nat2Z.id, drop_append. simpl take. simpl all_chars.
  change (String a "" =? ".")%string with (Ascii.eqb a "." && true).
  rewrite andb_true_r.
  destruct (Ascii.eqb_spec a ".") as [->|Hne]; simpl negb; cbv iota.
  - specialize (IH (pre +:+ ".") rest).
    rewrite !append_assoc, length_append in IH. simpl in IH.
    replace (Z.of_nat (String.length pre) + 1)%Z
      with (Z.of_nat (String.length pre + 1)) by lia.
    replace (String.length pre + S (String.length u))%nat
      with (String.length pre + 1 + String.length u)%nat by lia.
    exact IH.
  - unfold slice_to, slice_from. by rewrite Nat2Z.id.
Qed.

Lemma after_last_lstrip_dots u t :
  contains "." t = false →
  after_last "." (lstrip "." (u +:+ String "." t))
  = if all_chars "." u then None else Some t.
Proof.
  intros Ht. induction u as [|a u IH].
  - simpl. rewrite (lstrip_absent _ _ Ht). by apply after_last_absent.
  - simpl append. simpl lstrip. simpl all_chars.
    destruct (Ascii.eqb a "."); simpl; [exact IH|].
    by rewrite (after_last_append _ _ _ Ht).
Qed.

Lemma splitext_extension p :
  strip "." (snd (OsPath.splitext p)) = extension_past_leading_dots p.
Proof.
  unfold extension_past_leading_dots, OsPath.splitext.
  destruct (final_segment_split p) as (dir & Hp & Hseg & Hsep).
  set (seg := Spec.final_segment p) in *. clearbody seg. subst p.
  rewrite Hsep. clear Hsep.
  destruct (split_at_last "." seg) as [H|(u & t & -> & Ht)].
  - rewrite (rfind_append_absent _ _ _ H), (lstrip_absent _ _ H),
      (after_last_absent _ _ H).
    pose proof (rfind_lt "." dir) as [? _].
    destruct (Z.ltb_spec (Z.of_nat (String.length dir) - 1) (rfind "." dir));
      [lia|done].
  - rewrite after_last_lstrip_dots by done.
    replace (dir +:+ u +:+ String "." t) with ((dir +:+ u) +:+ String "." t)
      by apply append_assoc.
    rewrite (rfind_append_last _ _ _ Ht), length_append.
    destruct (Z.ltb_spec (Z.of_nat (String.length dir) - 1)
                (Z.of_nat (String.length dir + String.length u))); [|lia].
    replace (Z.to_nat (Z.of_nat (String.length dir + String.length u)
                       - (Z.of_nat (String.length dir) - 1 + 1)))
      with (String.length u) by lia.
    replace (Z.of_nat (String.length dir) - 1 + 1)%Z
      with (Z.of_nat (String.length dir)) by lia.
    rewrite append_assoc, skip_leading_dots_spec.
    destruct (all_chars "." u); simpl snd; [done|].
    rewrite <- append_assoc, <- length_append, drop_append.
    unfold strip. simpl lstrip.
    by rewrite (lstrip_absent _ _ Ht), (rstrip_absent _ _ Ht).
Qed.

Lemma content_type_lookup f :
  content_type f
  = default "application/octet-stream"
      (content_type_map !! extension_past_leading_dots f).
Proof. unfold content_type. by rewrite splitext_extension. Qed.

End ContentType.

(** C5, as amended.  [content_type] returns the table's entry for the
    extension of the file name, and ["application/octet-stream"] when the
    table has none; the lookup is case-sensitive.  The extension is the text
    after the last dot of the final path segment, where the leading dots of
    that segment do not count as extension dots (a name such as [.csv] has
    no extension).  In particular [report.csv] maps to [text/csv], while
    [data] and [archive.CSV] map to the fallback. *)
Theorem content_type_by_extension :
  (∀ f, content_type f
        = default "application/octet-stream"
            (content_type_map !! extension_past_leading_dots f))
  ∧ content_type "report.csv" = "text/csv"
  ∧ content_type "data" = "application/octet-stream"
  ∧ content_type "archive.CSV" = "application/octet-stream".
Proof.
  split; [exact content_type_lookup | by vm_compute].
Qed.

(** C5 as stated fails: for the file name [.csv] the text after the last dot
    of the final segment is [csv], which the table maps to [text/csv], but
    [content_type] answers with the fallback. *)
Lemma content_type_dotfile_counterexample :
  Spec.extension ".csv" = "csv"
  ∧ Spec.resolve ".csv" = "text/csv"
  ∧ content_type ".csv" = "application/octet-stream"
  ∧ content_type ".csv" ≠ Spec.resolve ".csv".
Proof. by vm_compute. Qed.

(** Where the final segment does not start with a dot, the two readings of
    "extension" agree. *)
Lemma content_type_agrees_with_spec f :
  Str.startswith "." (Spec.final_segment f) = false →
  content_type f = Spec.resolve f.
Proof.
  intros H. rewrite content_type_lookup.
  unfold Spec.resolve, Spec.extension, extension_past_leading_dots.
  destruct (Spec.final_segment f) as [|a seg]; [done|].
  cbn [Str.startswith] in H. cbn [Str.lstrip].
  rewrite Ascii.eqb_sym in H. by destruct (Ascii.eqb a ".").
Qed.

(** ** [chg_nonnum] *)

Lemma chg_nonnum_float x sub_val :
  chg_nonnum (PyFloat x) sub_val
  = inr (match x with S754_nan => sub_val | _ => PyFloat x end).
Proof. by destruct x. Qed.

Lemma chg_nonnum_int n sub_val :
  int_too_large_for_float n = false →
  chg_nonnum (PyInt n) sub_val = inr (PyInt n).
Proof. intros H. unfold chg_nonnum; simpl. by rewrite H. Qed.

Lemma chg_nonnum_bool b sub_val : chg_nonnum (PyBool b) sub_val = inr (PyBool b).
Proof. done. Qed.

Lemma chg_nonnum_not_a_number val sub_val :
  is_Number val = false → chg_nonnum val sub_val = inr sub_val.
Proof. intros H. unfold chg_nonnum. by rewrite H. Qed.

(** C4.  [chg_nonnum] is to return a number that is not NaN unchanged, for
    every numeric type and without raising.  It does not: a complex number
    passes the [numbers.Number] test and [math.isnan] then raises
    [TypeError], and an integer beyond the range of a double makes
    [math.isnan] raise [OverflowError].  Evaluated at [1+2j] and at
    [10**400]. *)
Theorem chg_nonnum_raises_on_numbers :
  chg_nonnum (PyComplex (S754_finite false 1 0) (S754_finite false 1 1)) (PyInt 0)
  = inl TypeError
  ∧ chg_nonnum (PyInt (10 ^ 400)) (PyInt 0) = inl OverflowError.
Proof. split; [reflexivity | by vm_compute]. Qed.

(** ** Running statements *)

Lemma bind_run {A B : Type} (m : M A) (k : A → M B) (w : world) :
  (m ≫= k) w = match m w with
               | (inr a, w') => k a w'
               | (inl e, w') => (inl e, w')
               end.
Proof. reflexivity. Qed.

Lemma ret_run {A : Type} (a : A) (w : world) : (mret a : M A) w = (inr a, w).
Proof. reflexivity. Qed.

Lemma for_each_cons {A : Type} (x : A) xs (body : A → M unit) w :
  for_each (x :: xs) body w
  = match body x w with
    | (inr _, w') => for_each xs body w'
    | (inl e, w') => (inl e, w')
    end.
Proof. reflexivity. Qed.

Lemma for_each_app {A : Type} (xs ys : list A) (body : A → M unit) w :
  for_each (xs ++ ys) body w
  = match for_each xs body w with
    | (inr _, w') => for_each ys body w'
    | (inl e, w') => (inl e, w')
    end.
Proof.
  revert w; induction xs as [|x xs IH]; intros w; [done|].
  simpl app. rewrite !for_each_cons.
  destruct (body x w) as [[e|[]] w']; [done|]. apply IH.
Qed.

(** A loop stops at the first iteration that raises: the exception and the
    world of that iteration are those of the loop. *)
Lemma for_each_abort {A : Type} (xs ys : list A) x (body : A → M unit) w w1 e w2 :
  for_each xs body w = (inr (), w1) →
  body x w1 = (inl e, w2) →
  for_each (xs ++ x :: ys) body w = (inl e, w2).
Proof.
  intros Hxs Hx. rewrite for_each_app, Hxs, for_each_cons. by rewrite Hx.
Qed.

(** What every iteration preserves holds when the loop ends, however it
    ends. *)
Lemma for_each_invariant {A : Type} (I : world → Prop) (xs : list A)
    (body : A → M unit) w :
  (∀ x w, x ∈ xs → I w → I (snd (body x w))) →
  I w → I (snd (for_each xs body w)).
Proof.
  revert w; induction xs as [|x xs IH]; intros w Hbody Hw; [done|].
  rewrite for_each_cons.
  pose proof (Hbody x w ltac:(left) Hw) as Hx.
  destruct (body x w) as [[e|[]] w']; [done|].
  apply IH; [|done]. intros y w'' Hy. apply Hbody. by right.
Qed.

(** ** The bucket listing *)

Lemma sorted_keys_elem (o : gmap string s3object) k :
  k ∈ sorted_keys o ↔ is_Some (o !! k).
Proof.
  unfold sorted_keys. rewrite merge_sort_Permutation, list_elem_of_fmap. split.
  - intros ([k' v] & -> & H). apply elem_of_map_to_list in H. by exists v.
  - intros [v H]. exists (k, v). split; [done|]. by apply elem_of_map_to_list.
Qed.

Lemma sorted_keys_NoDup (o : gmap string s3object) : NoDup (sorted_keys o).
Proof.
  unfold sorted_keys. rewrite merge_sort_Permutation. apply NoDup_fst_map_to_list.
Qed.

Lemma listing_elem (o : gmap string s3object) prefix k :
  k ∈ List.filter (Str.startswith prefix) (sorted_keys o)
  ↔ is_Some (o !! k) ∧ Str.startswith prefix k = true.
Proof.
  rewrite list_elem_of_In, filter_In, <- list_elem_of_In. by rewrite sorted_keys_elem.
Qed.

Lemma NoDup_List_filter {A : Type} (f : A → bool) (l : list A) :
  NoDup l → NoDup (List.filter f l).
Proof.
  induction 1 as [|x l Hx Hl IH]; simpl; [constructor|].
  destruct (f x); [|done]. constructor; [|done].
  rewrite list_elem_of_In, filter_In, <- list_elem_of_In. tauto.
Qed.

Lemma listing_NoDup (o : gmap string s3object) prefix :
  NoDup (List.filter (Str.startswith prefix) (sorted_keys o)).
Proof. apply NoDup_List_filter, sorted_keys_NoDup. Qed.

Lemma delete_keys_lookup ks : ∀ (o : gmap string s3object) x,
  delete_keys ks o !! x = if decide (x ∈ ks) then None else o !! x.
Proof.
  induction ks as [|k ks IH]; intros o x; cbn [delete_keys].
  - case_decide as H; [by apply elem_of_nil in H|done].
  - rewrite IH. destruct (decide (x = k)) as [->|Hne].
    + rewrite lookup_delete_eq. repeat case_decide; try done; exfalso;
        match goal with H : _ ∉ _ :: _ |- _ => apply H; by left end.
    + rewrite lookup_delete_ne by done.
      destruct (decide (x ∈ ks)) as [Hin|Hnin]; case_decide as H2; try done; exfalso.
      * apply H2. by right.
      * by apply elem_of_cons in H2 as [?|?].
Qed.

(** ** The environment when nothing is refused *)

Section EnvNoFaults.

Variable denies : list request → request → bool.
Hypothesis Hno : never_denies denies.

Lemma print_run line w :
  print line w
  = (inr (), {| files := files w; objects := objects w;
                stdout := stdout w ++ [line]; journal := journal w |}).
Proof. reflexivity. Qed.


Lemma os_remove_run path data w :
  fs_lookup (files w) path = Some (RegFile data) →
  Env.os_remove denies path w
  = (inr (), log_request (FsRemove path) (set_files (fs_delete (files w) path) w)).
Proof. intros H. unfold Env.os_remove, Env.refused. by rewrite H, Hno. Qed.


Lemma objects_filter_run prefix w :
  Env.objects_filter denies prefix w
  = (inr (List.filter (Str.startswith prefix) (sorted_keys (objects w))),
     log_request (S3ListObjects prefix) w).
Proof. unfold Env.objects_filter, Env.refused. by rewrite Hno. Qed.

Lemma delete_object_run key w :
  Env.delete_object denies key w
  = (inr (), log_request (S3DeleteObject key)
               (set_objects (delete key (objects w)) w)).
Proof. unfold Env.delete_object, Env.refused. by rewrite Hno. Qed.

Lemma copy_from_run dst src o w :
  objects w !! src = Some o → src ≠ dst →
  Env.copy_from denies dst src w
  = (inr (), log_request (S3CopyObject src dst)
               (set_objects (<[dst := o]> (objects w)) w)).
Proof.
  intros H Hne%String.eqb_neq. unfold Env.copy_from, Env.refused.
  by rewrite Hno, H, Hne.
Qed.

End EnvNoFaults.

(** ** [Bucket.clear_dir] *)

Section BucketClear.

Variable denies : list request → request → bool.
Hypothesis Hno : never_denies denies.

(** Without refusals the loop of [clear_dir] deletes every listed key. *)
Lemma clear_dir_loop ks : ∀ w,
  for_each ks (Bucket.clear_dir_body denies) w
  = (inr (), {| files := files w;
                objects := delete_keys ks (objects w);
                stdout := stdout w ++ (String.append "deleting " <$> ks);
                journal := journal w ++ (S3DeleteObject <$> ks) |}).
Proof.
  induction ks as [|k ks IH]; intros w.
  - destruct w; simpl. by rewrite !app_nil_r.
  - rewrite for_each_cons. unfold Bucket.clear_dir_body at 1.
    rewrite bind_run. unfold print at 1, Env.delete_object at 1, Env.refused.
    rewrite Hno. rewrite IH. simpl.
    by rewrite <- !app_assoc.
Qed.

Lemma clear_dir_run p w :
  let prefix := Str.strip "/" p in
  let ks := List.filter (Str.startswith prefix) (sorted_keys (objects w)) in
  Bucket.clear_dir denies p w
  = (inr (), {| files := files w;
                objects := delete_keys ks (objects w);
                stdout := stdout w ++ (String.append "deleting " <$> ks);
                journal := journal w ++ S3ListObjects prefix :: (S3DeleteObject <$> ks) |}).
Proof.
  intros prefix ks. unfold Bucket.clear_dir. fold prefix.
  rewrite bind_run. unfold Env.objects_filter, Env.refused. rewrite Hno.
  fold ks. rewrite clear_dir_loop. simpl. by rewrite <- app_assoc.
Qed.

(** After [clear_dir], a key is in the bucket exactly when it was there
    and does not start with the stripped prefix. *)
Lemma clear_dir_lookup p w k :
  objects (snd (Bucket.clear_dir denies p w)) !! k
  = if Str.startswith (Str.strip "/" p) k then None else objects w !! k.
Proof.
  rewrite clear_dir_run. simpl. rewrite delete_keys_lookup.
  destruct (Str.startswith (Str.strip "/" p) k) eqn:Hk.
  - destruct (decide _) as [|Hnin]; [done|].
    destruct (objects w !! k) eqn:Hlk; [|done].
    exfalso. apply Hnin, listing_elem. split; [by eexists|done].
  - rewrite decide_False; [done|]. intros [_ H]%listing_elem. congruence.
Qed.

End BucketClear.

(** C9.  A prefix that is empty or made of slashes only is stripped to the
    empty string; every key starts with it, so [Bucket.clear_dir] run to its
    end (no request refused) leaves the bucket empty. *)
Theorem clear_dir_blank_prefix_empties_bucket denies p w :
  never_denies denies →
  Str.all_chars "/" p = true →
  Str.strip "/" p = ""
  ∧ (∀ k, Str.startswith (Str.strip "/" p) k = true)
  ∧ fst (Bucket.clear_dir denies p w) = inr ()
  ∧ objects (snd (Bucket.clear_dir denies p w)) = ∅.
Proof.
  intros Hno Hp. pose proof (StrFacts.strip_all _ _ Hp) as Hstrip.
  split_and!; [done| by rewrite Hstrip | by rewrite clear_dir_run |].
  apply map_eq. intros k. rewrite clear_dir_lookup by done.
  by rewrite Hstrip, lookup_empty.
Qed.

Lemma clear_dir_blank_prefix_witness :
  let w := {| files := [];
              objects := list_to_map [("a/x.csv", S3Object "1" "text/csv");
                                      ("b.txt", S3Object "2" "text/plain")];
              stdout := []; journal := [] |} in
  objects w !! "b.txt" = Some (S3Object "2" "text/plain")
  ∧ objects (snd (Bucket.clear_dir (λ _ _, false) "//" w)) = ∅.
Proof.
  intros w. split; [by vm_compute|].
  apply (clear_dir_blank_prefix_empties_bucket (λ _ _, false) "//" w);
    [by intros ? ? | reflexivity].
Defined.

(** ** [Bucket.move_files] *)

Section MoveKeys.

Variables src_dir dest_dir : string.

Local Abbreviation move_step := (move_step src_dir dest_dir).

Lemma move_keys_cons k ks o :
  move_keys src_dir dest_dir (k :: ks) o
  = move_keys src_dir dest_dir ks (move_step k o).
Proof. reflexivity. Qed.

(** One step keeps every other key of the bucket. *)
Lemma move_step_keeps k o x :
  x ≠ k → is_Some (o !! x) → is_Some (move_step k o !! x).
Proof.
  intros Hne Hx. unfold move_step.
  destruct (is_marker src_dir k); [done|].
  destruct (o !! k) as [obj|]; [|done].
  rewrite lookup_delete_ne by done.
  destruct (decide (dest_key dest_dir k = x)) as [<-|Hd].
  - rewrite lookup_insert_eq. by eexists.
  - by rewrite lookup_insert_ne.
Qed.

(** A key outside the listing is never removed. *)
Lemma move_keys_keeps ks : ∀ o x,
  x ∉ ks → is_Some (o !! x) → is_Some (move_keys src_dir dest_dir ks o !! x).
Proof.
  induction ks as [|k ks IH]; intros o x Hx Ho; [done|].
  rewrite move_keys_cons. apply not_elem_of_cons in Hx as [Hne Hx].
  apply IH; [done|]. by apply move_step_keeps.
Qed.

(** A key that is absent and is no destination stays absent. *)
Lemma move_keys_absent ks : ∀ o x,
  (∀ k, k ∈ ks → is_marker src_dir k = false → dest_key dest_dir k ≠ x) →
  o !! x = None → move_keys src_dir dest_dir ks o !! x = None.
Proof.
  induction ks as [|k ks IH]; intros o x Hdst Ho; [done|].
  rewrite move_keys_cons. apply IH.
  - intros k' Hk'. apply Hdst. by right.
  - unfold move_step. destruct (is_marker src_dir k) eqn:Hm; [done|].
    destruct (o !! k) as [obj|]; [|done].
    destruct (decide (x = k)) as [->|Hne]; [by rewrite lookup_delete_eq|].
    rewrite lookup_delete_ne by done.
    rewrite lookup_insert_ne; [done|]. apply Hdst; [by left|done].
Qed.

(** A listed key that is not the marker and is no destination is gone. *)
Lemma move_keys_source_gone ks : ∀ o x,
  x ∈ ks → is_marker src_dir x = false →
  (∀ k, k ∈ ks → is_marker src_dir k = false → dest_key dest_dir k ≠ x) →
  move_keys src_dir dest_dir ks o !! x = None.
Proof.
  induction ks as [|k ks IH]; intros o x Hx Hm Hdst; [by apply elem_of_nil in Hx|].
  rewrite move_keys_cons.
  assert (∀ k', k' ∈ ks → is_marker src_dir k' = false → dest_key dest_dir k' ≠ x)
    as Hdst' by (intros k' Hk'; apply Hdst; by right).
  destruct (decide (x = k)) as [->|Hne].
  - apply move_keys_absent; [done|].
    unfold move_step. rewrite Hm.
    destruct (o !! k) as [obj|] eqn:Hk; [by rewrite lookup_delete_eq|done].
  - apply elem_of_cons in Hx as [?|Hx]; [done|]. by apply IH.
Qed.

(** The destination of a listed key exists at the end, when it is not
    itself a listed key. *)
Lemma move_keys_dest_exists ks : ∀ o x,
  NoDup ks → (∀ k, k ∈ ks → is_Some (o !! k)) →
  x ∈ ks → is_marker src_dir x = false →
  dest_key dest_dir x ∉ ks →
  is_Some (move_keys src_dir dest_dir ks o !! dest_key dest_dir x).
Proof.
  induction ks as [|k ks IH]; intros o x Hnd Hall Hx Hm Hd;
    [by apply elem_of_nil in Hx|].
  rewrite move_keys_cons.
  apply NoDup_cons in Hnd as [Hk Hnd].
  apply not_elem_of_cons in Hd as [Hdk Hd].
  destruct (decide (x = k)) as [->|Hne].
  - apply move_keys_keeps; [done|].
    unfold move_step. rewrite Hm.
    destruct (Hall k ltac:(left)) as [obj Hobj]. rewrite Hobj.
    rewrite lookup_delete_ne by done. rewrite lookup_insert_eq. by eexists.
  - apply elem_of_cons in Hx as [?|Hx]; [done|].
    apply IH; try done.
    intros k' Hk'. apply move_step_keeps; [by intros ->|].
    apply Hall. by right.
Qed.

End MoveKeys.

Section BucketMove.

Variable denies : list request → request → bool.
Hypothesis Hno : never_denies denies.
Variable bucket_name : string.

(** Without refusals, and when no key is its own destination, the loop of
    [move_files] runs to its end: each key is still in the bucket when its
    turn comes. *)
Lemma move_files_loop src_dir dest_dir ks : ∀ w,
  NoDup ks → (∀ k, k ∈ ks → is_Some (objects w !! k)) →
  (∀ k, k ∈ ks → is_marker src_dir k = false → dest_key dest_dir k ≠ k) →
  for_each ks (Bucket.move_files_body denies bucket_name src_dir dest_dir) w
  = (inr (), {| files := files w;
                objects := move_keys src_dir dest_dir ks (objects w);
                stdout := stdout w ++ flat_map (move_prints bucket_name src_dir) ks;
                journal := journal w ++ flat_map (move_requests src_dir dest_dir) ks |}).
Proof.
  induction ks as [|k ks IH]; intros w Hnd Hall Hself.
  - destruct w; simpl. by rewrite !app_nil_r.
  - apply NoDup_cons in Hnd as [Hk Hnd].
    assert (∀ k', k' ∈ ks → is_marker src_dir k' = false →
                  dest_key dest_dir k' ≠ k') as Hself'
      by (intros k' Hk'; apply Hself; by right).
    rewrite for_each_cons, move_keys_cons. unfold Bucket.move_files_body at 1.
    cbn [flat_map]. unfold move_prints at 1, move_requests at 1, move_step.
    fold (is_marker src_dir k). destruct (is_marker src_dir k) eqn:Hm.
    + rewrite ret_run, IH; [by rewrite !app_nil_l|done| |done].
      intros k' Hk'. apply Hall. by right.
    + destruct (Hall k ltac:(left)) as [obj Hobj].
      rewrite Hobj.
      rewrite bind_run, print_run, bind_run.
      fold (dest_key dest_dir k).
      rewrite (copy_from_run denies Hno _ _ obj);
        [|done|intros Heq; by apply (Hself k ltac:(left) Hm)].
      rewrite delete_object_run by done.
      rewrite IH; [|done| |done].
      * simpl. by rewrite <- !app_assoc.
      * intros k' Hk'. simpl.
        pose proof (move_step_keeps src_dir dest_dir k (objects w) k') as H.
        unfold move_step in H. rewrite Hm, Hobj in H.
        apply H; [by intros ->|]. apply Hall. by right.
Qed.

Lemma move_files_run src dst w :
  let s := Str.strip "/" src in
  let d := Str.strip "/" dst in
  let ks := List.filter (Str.startswith s) (sorted_keys (objects w)) in
  (∀ k, k ∈ ks → is_marker s k = false → dest_key d k ≠ k) →
  Bucket.move_files denies bucket_name src dst false w
  = (inr (), {| files := files w;
                objects := move_keys s d ks (objects w);
                stdout := stdout w ++ flat_map (move_prints bucket_name s) ks;
                journal := journal w ++ S3ListObjects s
                             :: flat_map (move_requests s d) ks |}).
Proof.
  intros s d ks Hself. unfold Bucket.move_files. fold s d.
  rewrite bind_run, ret_run, bind_run, objects_filter_run by done.
  cbn [objects log_request]. fold ks.
  rewrite move_files_loop.
  - simpl. by rewrite <- app_assoc.
  - apply listing_NoDup.
  - intros k Hk. simpl. by apply listing_elem in Hk as [? _].
  - exact Hself.
Qed.

End BucketMove.

(** A key under [prefix/] starts with [prefix]: what is shown below of the
    keys that start with a prefix holds of the keys under it. *)
Lemma under_startswith prefix k :
  Spec.under prefix k = true → Str.startswith prefix k = true.
Proof.
  apply StrFacts.startswith_trans, StrFacts.startswith_append.
Qed.

(** Case analysis on membership in a list that computes to a literal. *)
Ltac elem_cases H :=
  vm_compute in H;
  repeat (apply elem_of_cons in H as [->|H]);
  [..|by apply elem_of_nil in H].

(** C1, as amended.  Run without refusals and without clearing first,
    [move_files] lists the keys that start with the stripped source prefix
    and, for each of them in turn except a key that stripped of slashes is
    the source prefix itself, copies it to [dest/basename] and then deletes
    it.  When none of these destinations starts with the source prefix:
    afterwards the destination of every such key exists, the key itself is
    gone, and a key that still starts with the source prefix is a skipped
    directory marker. *)
Theorem move_files_moves_prefix denies bucket_name src dst w
    (Hno : never_denies denies)
    (Hdst : ∀ k, is_Some (objects w !! k) →
                 Str.startswith (Str.strip "/" src) k = true →
                 is_marker (Str.strip "/" src) k = false →
                 Str.startswith (Str.strip "/" src)
                   (dest_key (Str.strip "/" dst) k) = false) :
  let s := Str.strip "/" src in
  let d := Str.strip "/" dst in
  let ks := List.filter (Str.startswith s) (sorted_keys (objects w)) in
  let w' := snd (Bucket.move_files denies bucket_name src dst false w) in
  fst (Bucket.move_files denies bucket_name src dst false w) = inr ()
  ∧ journal w' = journal w ++ S3ListObjects s :: flat_map (move_requests s d) ks
  ∧ (∀ k, is_Some (objects w !! k) → Str.startswith s k = true →
          is_marker s k = false →
          is_Some (objects w' !! dest_key d k) ∧ objects w' !! k = None)
  ∧ (∀ k, Str.startswith s k = true → is_Some (objects w' !! k) →
          Str.strip "/" k = s).
Proof.
  intros s d ks w'. subst w'.
  assert (∀ k x, k ∈ ks → is_marker s k = false →
                 Str.startswith s x = true → dest_key d k ≠ x) as Hfresh.
  { intros k x [Hk Hsk]%listing_elem Hm Hx <-.
    pose proof (Hdst k Hk Hsk Hm) as H. subst s d. congruence. }
  rewrite move_files_run;
    [|done|intros k Hk Hm; apply Hfresh; [done..|by apply listing_elem in Hk as [_ ?]]].
  fold s d ks. cbn [fst snd objects journal].
  split_and!; [done..| |].
  - intros k Hk Hsk Hm.
    assert (k ∈ ks) as Hin by by apply listing_elem.
    split.
    + apply move_keys_dest_exists; try done.
      * apply listing_NoDup.
      * intros k' Hk'. by apply listing_elem in Hk' as [? _].
      * intros [_ Hd]%listing_elem. by eapply Hfresh.
    + apply move_keys_source_gone; try done.
      intros k' Hk' Hm'. by apply Hfresh.
  - intros k Hsk Hk.
    destruct (is_marker s k) eqn:Hm; [by apply String.eqb_eq in Hm|].
    exfalso.
    assert (move_keys s d ks (objects w) !! k = None) as Hnone.
    { destruct (objects w !! k) eqn:Hlk.
      - apply move_keys_source_gone; try done.
        + apply listing_elem. split; [by eexists|done].
        + intros k' Hk' Hm'. by apply Hfresh.
      - apply move_keys_absent; [|done].
        intros k' Hk' Hm'. by apply Hfresh. }
    rewrite Hnone in Hk. by apply is_Some_None in Hk.
Qed.

Lemma no_faults_never_denies : never_denies no_faults.
Proof. by intros j r. Qed.

Lemma move_files_moves_prefix_witness :
  let w' := snd (Bucket.move_files no_faults "bk" "/a/" "b" false sample_world) in
  never_denies no_faults
  ∧ is_Some (objects sample_world !! "a/sub/y.txt")
  ∧ is_Some (objects w' !! "b/y.txt")
  ∧ objects w' !! "a/sub/y.txt" = None.
Proof.
  intros w'.
  assert (∀ k, is_Some (objects sample_world !! k) →
               Str.startswith (Str.strip "/" "/a/") k = true →
               is_marker (Str.strip "/" "/a/") k = false →
               Str.startswith (Str.strip "/" "/a/")
                 (dest_key (Str.strip "/" "b") k) = false) as Hdst
    by (intros k _ _ _; by vm_compute).
  destruct (move_files_moves_prefix no_faults "bk" "/a/" "b" sample_world
              no_faults_never_denies Hdst) as (_ & _ & Hmoved & _).
  assert (is_Some (objects sample_world !! "a/sub/y.txt")) as Hk
    by (by vm_compute; eexists).
  split_and!; [exact no_faults_never_denies | exact Hk | |];
    apply (Hmoved "a/sub/y.txt" Hk); reflexivity.
Defined.

(** C1 as stated fails when the destination lies under the source: moving
    [a] to [a/b] in a bucket that holds [a/x.csv] ends with [a/b/x.csv],
    an object under [a/]. *)
Lemma move_files_nested_dest_counterexample :
  let before : gmap string s3object := {[ "a/x.csv" := S3Object "1,2" "text/csv" ]} in
  let w := {| files := []; objects := before; stdout := []; journal := [] |} in
  let after := objects (snd (Bucket.move_files no_faults "bk" "a" "a/b" false w)) in
  fst (Bucket.move_files no_faults "bk" "a" "a/b" false w) = inr ()
  ∧ after = {[ "a/b/x.csv" := S3Object "1,2" "text/csv" ]}
  ∧ ¬ Spec.moved "a" "a/b" before after.
Proof.
  intros before w after.
  assert (after = {[ "a/b/x.csv" := S3Object "1,2" "text/csv" ]}) as Hafter.
  { subst after w before. apply map_eq. intros k. by vm_compute. }
  split_and!; [by vm_compute | done |].
  intros [_ Hnone]. specialize (Hnone "a/b/x.csv" eq_refl).
  rewrite Hafter in Hnone. by vm_compute in Hnone.
Qed.

(** C10.  The listing of [Bucket.clear_dir] and of [Bucket.move_files]
    selects keys by their leading characters alone.  Run without refusals,
    any object whose key starts with the stripped prefix, whether or not a
    slash follows the prefix in the key, is deleted by [clear_dir]; and
    [move_files], when no selected key is its own destination (S3 rejects
    the copy of an object onto itself), ends normally having copied the key
    to [dest/basename] and then deleted it (unless the key stripped of
    slashes is the prefix itself). *)
Theorem prefix_selection_ignores_separators denies bucket_name p dst k w
    (Hno : never_denies denies)
    (Hk : is_Some (objects w !! k))
    (Hp : Str.startswith (Str.strip "/" p) k = true) :
  objects (snd (Bucket.clear_dir denies p w)) !! k = None
  ∧ S3DeleteObject k ∈ journal (snd (Bucket.clear_dir denies p w))
  ∧ (Str.strip "/" k ≠ Str.strip "/" p →
     (∀ k', is_Some (objects w !! k') →
            Str.startswith (Str.strip "/" p) k' = true →
            is_marker (Str.strip "/" p) k' = false →
            dest_key (Str.strip "/" dst) k' ≠ k') →
     fst (Bucket.move_files denies bucket_name p dst false w) = inr ()
     ∧ ∃ j1 j2,
         journal (snd (Bucket.move_files denies bucket_name p dst false w))
         = j1 ++ [S3CopyObject k (dest_key (Str.strip "/" dst) k); S3DeleteObject k]
              ++ j2).
Proof.
  assert (k ∈ List.filter (Str.startswith (Str.strip "/" p)) (sorted_keys (objects w)))
    as Hin by (apply listing_elem; split; assumption).
  split_and!.
  - rewrite clear_dir_lookup by assumption. by rewrite Hp.
  - rewrite clear_dir_run by assumption. cbn [snd journal].
    apply elem_of_app. right. right. apply list_elem_of_fmap. by exists k.
  - intros Hm Hself.
    rewrite move_files_run;
      [|assumption|intros k' [Hk' Hs']%listing_elem; by apply Hself].
    cbn [fst snd journal]. split; [reflexivity|].
    apply list_elem_of_split in Hin as (l1 & l2 & ->).
    rewrite flat_map_app. cbn [flat_map]. unfold move_requests at 2.
    replace (is_marker (Str.strip "/" p) k) with false
      by (symmetry; by apply String.eqb_neq).
    exists (journal w ++ S3ListObjects (Str.strip "/" p)
                :: flat_map (move_requests (Str.strip "/" p) (Str.strip "/" dst)) l1),
           (flat_map (move_requests (Str.strip "/" p) (Str.strip "/" dst)) l2).
    rewrite <- app_assoc. reflexivity.
Qed.

Lemma prefix_selection_witness :
  never_denies no_faults
  ∧ Str.startswith (Str.strip "/" "a") "ab/z.csv" = true
  ∧ objects (snd (Bucket.clear_dir no_faults "a" sample_world)) !! "ab/z.csv" = None
  ∧ S3DeleteObject "ab/z.csv" ∈ journal (snd (Bucket.clear_dir no_faults "a" sample_world))
  ∧ ∃ j1 j2,
      journal (snd (Bucket.move_files no_faults "bk" "a" "b" false sample_world))
      = j1 ++ [S3CopyObject "ab/z.csv" (dest_key (Str.strip "/" "b") "ab/z.csv");
               S3DeleteObject "ab/z.csv"] ++ j2.
Proof.
  assert (is_Some (objects sample_world !! "ab/z.csv")) as Hk by (by vm_compute; eexists).
  destruct (prefix_selection_ignores_separators no_faults "bk" "a" "b" "ab/z.csv"
              sample_world no_faults_never_denies Hk eq_refl) as (H1 & H2 & H3).
  split_and!; [exact no_faults_never_denies | reflexivity | exact H1 | exact H2 |].
  apply H3.
  - apply String.eqb_neq. reflexivity.
  - intros k' _ Hs _ Heq. rewrite <- Heq in Hs. vm_compute in Hs. discriminate Hs.
Defined.

(** The example of the claim: clearing [foo] deletes [foobar/x.csv] too. *)
Example clear_dir_foo_deletes_foobar :
  let w := {| files := [];
              objects := list_to_map [("foo/a.csv", S3Object "1" "text/csv");
                                      ("foobar/x.csv", S3Object "2" "text/csv");
                                      ("other.txt", S3Object "3" "text/plain")];
              stdout := []; journal := [] |} in
  objects (snd (Bucket.clear_dir no_faults "foo" w))
  = {[ "other.txt" := S3Object "3" "text/plain" ]}
  ∧ journal (snd (Bucket.move_files no_faults "bk" "foo" "dest" false w))
    = [ S3ListObjects "foo";
        S3CopyObject "foo/a.csv" "dest/a.csv"; S3DeleteObject "foo/a.csv";
        S3CopyObject "foobar/x.csv" "dest/x.csv"; S3DeleteObject "foobar/x.csv" ].
Proof. intros w. split; [apply map_eq; intros k|]; by vm_compute. Qed.

(** ** [Bucket.upload_file] *)

(** [open] and [os.remove] raise no error of the remote kind. *)
Lemma walk_local fs rest : ∀ seen comp,
  TransferError (Env.walk fs seen comp rest) = false.
Proof.
  induction rest as [|c rest IH]; intros seen comp; cbn [Env.walk].
  - by repeat case_match.
  - repeat case_match; (done || apply IH).
Qed.

Lemma path_error_local fs path : TransferError (Env.path_error fs path) = false.
Proof. unfold Env.path_error. repeat case_match; (done || apply walk_local). Qed.

Lemma upload_file_cases denies file_path dest_key w :
  Bucket.upload_file denies file_path dest_key w
  = match fs_lookup (files w) file_path with
    | None => (inl (Env.path_error (files w) file_path), w)
    | Some Directory => (inl IsADirectoryError, w)
    | Some (RegFile data) =>
        if denies (journal w) (FsOpen file_path) then (inl PermissionError, w)
        else if String.eqb dest_key ""
             then (inl ParamValidationError, log_request (FsOpen file_path) w)
        else if denies (journal w ++ [FsOpen file_path]) (S3PutObject dest_key)
             then (inl (ClientError "AccessDenied"), log_request (FsOpen file_path) w)
             else (inr (),
                   {| files := files w;
                      objects := <[dest_key := S3Object data (content_type file_path)]>
                                   (objects w);
                      stdout := stdout w
                                ++ ["uploaded " +:+ file_path
                                    +:+ " with Content Type: " +:+ content_type file_path];
                      journal := journal w ++ [FsOpen file_path; S3PutObject dest_key] |})
    end.
Proof.
  unfold Bucket.upload_file. rewrite bind_run.
  unfold Env.open_rb at 1, Env.refused.
  destruct (fs_lookup (files w) file_path) as [[data|]|]; [|done..].
  destruct (denies (journal w) (FsOpen file_path)); [done|].
  rewrite bind_run. unfold Env.put_object at 1, Env.refused.
  destruct (String.eqb dest_key ""); [done|].
  cbn [journal log_request].
  destruct (denies _ (S3PutObject dest_key)); [done|].
  rewrite print_run. cbn. by rewrite <- app_assoc.
Qed.

(** C3, as amended.  [upload_file] lets the exception of the failing step
    through unchanged.  When the local file cannot be read, [open] raises
    its own exception, which is not of the remote kind, and the call leaves
    the world as it was: the bucket is never asked and nothing is printed.
    When the file was opened and the bucket refuses the write of a
    well-formed key, the remote error of [put_object] is raised, the bucket
    unchanged; when the bucket accepts, the content of the file is stored
    under the key.  An error of the remote kind is raised exactly when the
    file could be read and the write was refused. *)
Theorem upload_file_outcome denies file_path dest_key w :
  (cannot_be_read denies w file_path = true →
   ∃ e, Bucket.upload_file denies file_path dest_key w = (inl e, w)
        ∧ TransferError e = false)
  ∧ (cannot_be_read denies w file_path = false → dest_key ≠ "" →
     denies (journal w ++ [FsOpen file_path]) (S3PutObject dest_key) = true →
     ∃ e, Bucket.upload_file denies file_path dest_key w
          = (inl e, log_request (FsOpen file_path) w)
          ∧ TransferError e = true)
  ∧ (cannot_be_read denies w file_path = false → dest_key ≠ "" →
     denies (journal w ++ [FsOpen file_path]) (S3PutObject dest_key) = false →
     ∃ data, fs_lookup (files w) file_path = Some (RegFile data)
             ∧ objects (snd (Bucket.upload_file denies file_path dest_key w))
               = <[dest_key := S3Object data (content_type file_path)]> (objects w)
             ∧ journal (snd (Bucket.upload_file denies file_path dest_key w))
               = journal w ++ [FsOpen file_path; S3PutObject dest_key])
  ∧ ((∃ e, fst (Bucket.upload_file denies file_path dest_key w) = inl e
           ∧ TransferError e = true)
     ↔ cannot_be_read denies w file_path = false
       ∧ dest_key ≠ ""
       ∧ denies (journal w ++ [FsOpen file_path]) (S3PutObject dest_key) = true).
Proof.
  rewrite upload_file_cases. unfold cannot_be_read.
  pose proof (path_error_local (files w) file_path) as Hlocal.
  destruct (fs_lookup (files w) file_path) as [[data|]|] eqn:Hlk; cbn [fst].
  - destruct (denies (journal w) (FsOpen file_path)) eqn:Hopen; cbn [fst].
    + split_and!; [by eexists|done..|].
      split; [by intros (e & [= <-] & He)|by intros [? _]].
    + destruct (String.eqb_spec dest_key "") as [->|Hkey]; cbn [fst].
      * split_and!; [done..|].
        split; [by intros (e & [= <-] & He)|by intros (_ & ? & _)].
      * destruct (denies (journal w ++ [FsOpen file_path]) (S3PutObject dest_key));
          cbn [fst].
        -- split_and!; [done|by eexists|done|]. split; [done|]. intros _. by eexists.
        -- split_and!; [done..|by exists data|].
           split; [by intros (e & [=] & _)|by intros (_ & _ & ?)].
  - split_and!; [by eexists|done..|].
    split; [by intros (e & [= <-] & He)|by intros [? _]].
  - split_and!; [by eexists|done..|].
    split; [intros (e & [= <-] & He); congruence|by intros [? _]].
Qed.

Lemma upload_file_outcome_witness :
  cannot_be_read no_faults sample_world "out/b" = true
  ∧ ∃ e, Bucket.upload_file no_faults "out/b" "x/b" sample_world = (inl e, sample_world)
         ∧ TransferError e = false.
Proof.
  split; [reflexivity|].
  exact (proj1 (upload_file_outcome no_faults "out/b" "x/b" sample_world) eq_refl).
Defined.

(** C3 as stated fails: a local file that does not exist cannot be read,
    and [upload_file] then raises [FileNotFoundError], which is not an error
    of the remote kind; the bucket is never asked. *)
Lemma upload_file_missing_file_counterexample :
  cannot_be_read no_faults sample_world "out/missing.csv" = true
  ∧ Bucket.upload_file no_faults "out/missing.csv" "dest/missing.csv" sample_world
    = (inl FileNotFoundError, sample_world)
  ∧ TransferError FileNotFoundError = false.
Proof. by vm_compute. Qed.

(** ** [Bucket.upload_dir] *)

(** C2.  [upload_dir] is to skip the subdirectories of the local directory
    and complete.  It does not: [glob] lists a subdirectory like any other
    entry, the loop hands it to [upload_file], and [open] raises
    [IsADirectoryError].  In the sample directory [out/a.txt] is uploaded,
    then the subdirectory [out/b] ends the call. *)
Theorem upload_dir_raises_on_subdirectory :
  fs_lookup sample_files "out/b" = Some Directory
  ∧ fst (Bucket.upload_dir no_faults "out" "dest" false sample_world)
    = inl IsADirectoryError
  ∧ journal (snd (Bucket.upload_dir no_faults "out" "dest" false sample_world))
    = [FsOpen "out/a.txt"; S3PutObject "dest/a.txt"].
Proof. by vm_compute. Qed.


(** ** The local filesystem *)

Lemma fs_lookup_delete fs p q :
  fs_lookup (fs_delete fs p) q = if String.eqb p q then None else fs_lookup fs q.
Proof.
  unfold fs_lookup, fs_delete.
  induction fs as [|[a n] fs IH]; cbn [List.filter List.find fst].
  - by destruct (String.eqb p q).
  - destruct (String.eqb_spec a p) as [->|Hap]; cbn [negb List.find fst].
    + rewrite IH. by destruct (String.eqb_spec p q).
    + destruct (String.eqb_spec a q) as [->|Haq]; [|exact IH].
      by destruct (String.eqb_spec p q); [subst|].
Qed.

Lemma fs_lookup_Some fs p n : fs_lookup fs p = Some n → p ∈ fst <$> fs.
Proof.
  unfold fs_lookup. destruct (List.find _ fs) as [[a m]|] eqn:H; [|done].
  intros _. apply find_some in H as [Hin Heq]. apply String.eqb_eq in Heq.
  cbn in Heq. subst a. apply list_elem_of_fmap. exists (p, m).
  split; [done|]. by apply list_elem_of_In.
Qed.

Lemma startswith_sep_contains c s :
  Str.contains c s = false → Str.startswith (String c "") s = false.
Proof.
  destruct s as [|a s]; [done|]. cbn [Str.contains Str.startswith].
  rewrite (Ascii.eqb_sym c a). by destruct (Ascii.eqb a c).
Qed.

(** ** [clear_dir] (module level) *)

Section LocalClear.

Variable denies : list request → request → bool.

Lemma clear_dir_body_eq fn w :
  clear_dir_body denies fn w
  = match fs_lookup (files w) fn with
    | Some (RegFile _) =>
        let w1 := {| files := files w; objects := objects w;
                     stdout := stdout w ++ ["deleting " +:+ fn];
                     journal := journal w |} in
        if denies (journal w) (FsRemove fn) then (inl PermissionError, w1)
        else (inr (), log_request (FsRemove fn)
                        (set_files (fs_delete (files w) fn) w1))
    | _ => (inr (), w)
    end.
Proof.
  unfold clear_dir_body. rewrite bind_run. unfold os_path_isfile at 1.
  destruct (fs_lookup (files w) fn) as [[data|]|] eqn:Hlk; [|done..].
  rewrite bind_run, print_run. unfold Env.os_remove, Env.refused.
  cbn [files journal]. by rewrite Hlk.
Qed.

(** One iteration leaves the files as they are or removes the regular file
    it was given. *)
Lemma clear_dir_body_files fn w :
  files (snd (clear_dir_body denies fn w)) = files w
  ∨ (∃ data, fs_lookup (files w) fn = Some (RegFile data))
    ∧ files (snd (clear_dir_body denies fn w)) = fs_delete (files w) fn.
Proof.
  rewrite clear_dir_body_eq.
  destruct (fs_lookup (files w) fn) as [[data|]|] eqn:Hlk; [|by left..].
  cbv zeta. destruct (denies _ _); [by left|].
  right. split; [by eexists|done].
Qed.

(** An entry that is a directory, or that the loop is never given, is
    still there when the loop ends, however it ends. *)
Lemma clear_dir_loop_keeps fns path nd w :
  nd = Directory ∨ path ∉ fns →
  fs_lookup (files w) path = Some nd →
  fs_lookup (files (snd (for_each fns (clear_dir_body denies) w))) path = Some nd.
Proof.
  intros Hprot.
  apply (for_each_invariant (λ w, fs_lookup (files w) path = Some nd)).
  intros fn w1 Hfn Hw1.
  destruct (clear_dir_body_files fn w1) as [->|[[data Hdata] ->]]; [done|].
  rewrite fs_lookup_delete. destruct (String.eqb_spec fn path) as [->|]; [|done].
  exfalso. destruct Hprot as [->|Hnin]; [congruence|done].
Qed.

Hypothesis Hno : never_denies denies.

Lemma clear_dir_body_run fn w :
  ∃ w', clear_dir_body denies fn w = (inr (), w')
        ∧ ∀ q, fs_lookup (files w') q
               = match fs_lookup (files w) fn with
                 | Some (RegFile _) =>
                     if String.eqb fn q then None else fs_lookup (files w) q
                 | _ => fs_lookup (files w) q
                 end.
Proof.
  rewrite clear_dir_body_eq.
  destruct (fs_lookup (files w) fn) as [[data|]|] eqn:Hlk;
    [|by eexists; split; [done|]..].
  cbv zeta. rewrite Hno.
  eexists; split; [done|]. intros q. cbn [files log_request set_files].
  apply fs_lookup_delete.
Qed.

(** Without refusals the loop ends normally with every regular file it was
    given removed and nothing else changed. *)
Lemma clear_dir_loop_run fns : ∀ w,
  ∃ w', for_each fns (clear_dir_body denies) w = (inr (), w')
        ∧ ∀ q, fs_lookup (files w') q
               = if decide (q ∈ fns)
                 then match fs_lookup (files w) q with
                      | Some (RegFile _) => None
                      | o => o
                      end
                 else fs_lookup (files w) q.
Proof.
  induction fns as [|fn fns IH]; intros w.
  - exists w. split; [done|]. intros q. by rewrite decide_False by apply not_elem_of_nil.
  - rewrite for_each_cons.
    destruct (clear_dir_body_run fn w) as (w1 & -> & Hw1).
    destruct (IH w1) as (w' & -> & Hw'). exists w'. split; [done|].
    intros q. rewrite Hw', !Hw1.
    destruct (String.eqb_spec fn q) as [->|Hne].
    + rewrite (decide_True (P := q ∈ q :: fns)) by left.
      destruct (fs_lookup (files w) q) as [[data|]|]; by destruct (decide _).
    + assert (fs_lookup (files w1) q = fs_lookup (files w) q) as Hq.
      { rewrite Hw1. destruct (fs_lookup (files w) fn) as [[data|]|]; [|done..].
        by destruct (String.eqb_spec fn q). }
      destruct (decide (q ∈ fns)) as [Hin|Hnin].
      * rewrite (decide_True (P := q ∈ fn :: fns)) by by right.
        by destruct (fs_lookup (files w) fn) as [[data|]|];
          destruct (fs_lookup (files w) q) as [[data'|]|].
      * rewrite (decide_False (P := q ∈ fn :: fns)).
        -- by destruct (fs_lookup (files w) fn) as [[data|]|].
        -- by intros [?|?]%elem_of_cons.
Qed.

End LocalClear.

Lemma clear_dir_eq denies dir_path w :
  clear_dir denies dir_path w
  = for_each (glob_paths (OsPath.join dir_path "*") (files w))
      (clear_dir_body denies) w.
Proof. reflexivity. Qed.

(** C8.  [clear_dir] is to delete the regular files of the directory it is
    given whose names do not start with a dot, and nothing else, for every
    directory path.  It does not when the path holds a character that
    [glob] reads as a pattern: the path is handed to [glob] unescaped.  For
    the directory [dat[a]], [glob] lists the directory [data] instead:
    [clear_dir] leaves [dat[a]/a.txt] where it is and deletes
    [data/b.txt], a file of another directory. *)
Theorem clear_dir_bracket_directory :
  fs_lookup bracket_files (OsPath.join "dat[a]" "a.txt") = Some (RegFile "A")
  ∧ glob_paths (OsPath.join "dat[a]" "*") bracket_files = ["data/b.txt"]
  ∧ clear_dir no_faults "dat[a]" bracket_world
    = (inr (), {| files := [ ("dat[a]", Directory);
                             ("dat[a]/a.txt", RegFile "A");
                             ("data", Directory) ];
                  objects := ∅;
                  stdout := ["deleting data/b.txt"];
                  journal := [FsRemove "data/b.txt"] |}).
Proof. by vm_compute. Qed.

(** The example of the specification: of [a.txt], [b/] and [.gitignore],
    only [b/] and [.gitignore] remain. *)
Example clear_dir_sample :
  clear_dir no_faults "out" sample_world
  = (inr (), {| files := [ ("out", Directory);
                           ("out/.gitignore", RegFile "*");
                           ("out/b", Directory);
                           ("out/b/c.txt", RegFile "C") ];
                objects := sample_bucket;
                stdout := ["deleting out/a.txt"];
                journal := [FsRemove "out/a.txt"] |}).
Proof. reflexivity. Qed.


(** ** Stripping twice *)

Lemma rstrip_idem c s : Str.rstrip c (Str.rstrip c s) = Str.rstrip c s.
Proof.
  induction s as [|a s IH]; [done|]. cbn [Str.rstrip].
  destruct (Str.rstrip c s) as [|b r] eqn:Hr.
  - destruct (Ascii.eqb a c) eqn:Ha; [done|]. cbn [Str.rstrip]. by rewrite Ha.
  - change (Str.rstrip c (String a (String b r)))
      with (match Str.rstrip c (String b r) with
            | EmptyString => if Ascii.eqb a c then EmptyString else String a EmptyString
            | r' => String a r'
            end).
    by rewrite IH.
Qed.

Lemma lstrip_head c s :
  match Str.lstrip c s with
  | EmptyString => True
  | String a _ => Ascii.eqb a c = false
  end.
Proof.
  induction s as [|a s IH]; [done|]. cbn [Str.lstrip].
  by destruct (Ascii.eqb a c) eqn:Ha.
Qed.

Lemma strip_idem c s : Str.strip c (Str.strip c s) = Str.strip c s.
Proof.
  unfold Str.strip. pose proof (lstrip_head c s) as Hhead.
  destruct (Str.lstrip c s) as [|a t]; [done|].
  assert (∃ t', Str.rstrip c (String a t) = String a t') as [t' Ht'].
  { cbn [Str.rstrip]. destruct (Str.rstrip c t); rewrite ?Hhead; by eexists. }
  rewrite Ht'. cbn [Str.lstrip]. rewrite Hhead. rewrite <- Ht'. apply rstrip_idem.
Qed.

(** ** More on [glob] and [os.path.basename] *)

Lemma fs_lookup_is_Some fs p : p ∈ fst <$> fs ↔ is_Some (fs_lookup fs p).
Proof.
  split; [|intros [n H]; by eapply fs_lookup_Some].
  intros ([a n] & -> & Hin)%list_elem_of_fmap. unfold fs_lookup.
  destruct (List.find _ fs) as [e|] eqn:Hfind; [by eexists|].
  apply list_elem_of_In in Hin.
  pose proof (find_none _ _ Hfind _ Hin) as H. cbn in H.
  by rewrite String.eqb_refl in H.
Qed.

Lemma rstrip_changed c s :
  Str.rstrip c s ≠ s → ∃ u, s = u +:+ String c "".
Proof.
  induction s as [|a s IH]; [done|]. cbn [Str.rstrip].
  destruct (Str.rstrip c s) as [|b r] eqn:Hr.
  - destruct s as [|b s'].
    + destruct (Ascii.eqb_spec a c) as [->|]; [|done]. intros _. by exists "".
    + intros _. destruct IH as [u Hu]; [done|]. exists (String a u).
      cbn [String.append]. by rewrite <- Hu.
  - intros Hne. destruct IH as [u Hu]; [congruence|]. exists (String a u).
    cbn [String.append]. by rewrite <- Hu.
Qed.

(** [os.path.join] and [os.path.basename] undo each other on a single
    component. *)
Lemma basename_join dir_path name :
  Str.contains "/" name = false →
  OsPath.basename (OsPath.join dir_path name) = name.
Proof.
  intros Hname. unfold OsPath.join, OsPath.basename, Str.slice_from.
  rewrite (startswith_sep_contains _ _ Hname).
  assert (∀ u, Str.drop (Z.to_nat (Str.rfind "/" ((u +:+ "/") +:+ name) + 1))
                 ((u +:+ "/") +:+ name) = name) as Hsep.
  { intros u. rewrite StrFacts.append_assoc. cbn [String.append].
    rewrite (StrFacts.rfind_append_last _ _ _ Hname).
    replace (Z.to_nat (Z.of_nat (String.length u) + 1))
      with (String.length (u +:+ "/"))
      by (rewrite StrFacts.length_append; simpl; lia).
    replace (u +:+ String "/" name) with ((u +:+ "/") +:+ name)
      by (by rewrite StrFacts.append_assoc).
    apply StrFacts.drop_append. }
  destruct (String.eqb_spec dir_path "") as [->|Hne]; cbn [orb].
  - cbn [String.append]. by rewrite (StrFacts.rfind_absent _ _ Hname).
  - destruct (OsPath.ends_with_sep dir_path) eqn:Hends.
    + unfold OsPath.ends_with_sep in Hends.
      destruct (rstrip_changed "/" dir_path) as [u ->].
      { destruct dir_path; [done|].
        destruct (String.eqb_spec (Str.rstrip "/" (String a dir_path))
                    (String a dir_path)); [|done].
        by destruct (Str.rstrip "/" (String a dir_path)). }
      apply Hsep.
    + rewrite <- StrFacts.append_assoc. apply Hsep.
Qed.

(** *** [glob] on a directory whose path holds no metacharacter *)

Lemma star_matches_no_sep name :
  star_matches name = true → Str.contains "/" name = false.
Proof.
  unfold star_matches. destruct (Str.contains "/" name); [|done].
  by rewrite andb_false_r.
Qed.

Lemma append_nil_r s : s +:+ "" = s.
Proof. induction s as [|a s IH]; simpl; congruence. Qed.

Lemma join_prefix a b :
  Str.startswith "/" b = false → OsPath.join a b = OsPath.join a "" +:+ b.
Proof.
  intros Hb. unfold OsPath.join. rewrite Hb. cbn [Str.startswith].
  destruct (String.eqb a "" || OsPath.ends_with_sep a).
  - by rewrite append_nil_r.
  - rewrite StrFacts.append_assoc. reflexivity.
Qed.

(** The directory part [os.path.join] puts in front is empty or ends with
    a slash. *)
Lemma join_sep_form a : OsPath.join a "" = "" ∨ ∃ u, OsPath.join a "" = u +:+ "/".
Proof.
  unfold OsPath.join. cbn [Str.startswith].
  destruct (String.eqb_spec a "") as [->|Hne]; cbn [orb]; [by left|].
  destruct (OsPath.ends_with_sep a) eqn:Hends.
  - right. unfold OsPath.ends_with_sep in Hends.
    destruct (rstrip_changed "/" a) as [u ->].
    { destruct a; [done|].
      destruct (String.eqb_spec (Str.rstrip "/" (String a a0)) (String a a0)); [|done].
      by destruct (Str.rstrip "/" (String a a0)). }
    exists u. apply append_nil_r.
  - right. by exists a.
Qed.

Lemma split_prefix P t :
  P = "" ∨ (∃ u, P = u +:+ "/") → Str.contains "/" t = false →
  Str.slice_to (P +:+ t) (Str.rfind "/" (P +:+ t) + 1) = P.
Proof.
  intros [->|[u ->]] Ht; unfold Str.slice_to.
  - cbn [String.append]. by rewrite (StrFacts.rfind_absent _ _ Ht).
  - rewrite StrFacts.append_assoc. cbn [String.append].
    rewrite (StrFacts.rfind_append_last _ _ _ Ht).
    replace (Z.to_nat (Z.of_nat (String.length u) + 1))
      with (String.length (u +:+ "/"))
      by (rewrite StrFacts.length_append; simpl; lia).
    replace (u +:+ String "/" t) with ((u +:+ "/") +:+ t)
      by (by rewrite StrFacts.append_assoc).
    apply StrFacts.take_append.
Qed.

Lemma glob_dir_eq dir_path :
  glob_dir dir_path
  = let P := OsPath.join dir_path "" in
    if negb (String.eqb P "") && negb (Str.all_chars "/" P)
    then Str.rstrip "/" P else P.
Proof.
  unfold glob_dir, OsPath.split. cbn [fst].
  rewrite (join_prefix dir_path "*") by done.
  by rewrite split_prefix by (apply join_sep_form || done).
Qed.

Lemma split_join_star dir_path :
  OsPath.split (OsPath.join dir_path "*") = (glob_dir dir_path, "*").
Proof.
  unfold glob_dir. destruct (OsPath.split _) as [h t] eqn:Hsplit. cbn [fst].
  f_equal. change t with (snd (h, t)). rewrite <- Hsplit.
  change (OsPath.basename (OsPath.join dir_path "*") = "*").
  by apply basename_join.
Qed.

Lemma has_magic_append s t :
  Glob.has_magic (s +:+ t) = Glob.has_magic s || Glob.has_magic t.
Proof.
  unfold Glob.has_magic. rewrite !StrFacts.contains_append.
  repeat match goal with
         | |- context [Str.contains ?c ?x] => destruct (Str.contains c x)
         end; reflexivity.
Qed.

Lemma contains_rstrip c x s :
  Str.contains c s = false → Str.contains c (Str.rstrip x s) = false.
Proof.
  induction s as [|a s IH]; [done|]. cbn [Str.contains Str.rstrip].
  intros [Ha Hs]%orb_false_elim. specialize (IH Hs).
  destruct (Str.rstrip x s) as [|b r].
  - destruct (Ascii.eqb a x); [done|]. cbn [Str.contains]. by rewrite Ha.
  - cbn [Str.contains] in IH |- *. by rewrite Ha, IH.
Qed.

Lemma has_magic_join dir_path c :
  Glob.has_magic dir_path = false → Glob.has_magic (OsPath.join dir_path c) = Glob.has_magic c.
Proof.
  intros Hm. unfold OsPath.join.
  destruct (Str.startswith "/" c); [done|].
  destruct (String.eqb dir_path "" || OsPath.ends_with_sep dir_path).
  - by rewrite has_magic_append, Hm.
  - by rewrite !has_magic_append, Hm.
Qed.

(** Stripping the trailing slashes brings in no metacharacter. *)
Lemma glob_dir_plain dir_path :
  Glob.has_magic dir_path = false → Glob.has_magic (glob_dir dir_path) = false.
Proof.
  intros Hm. rewrite glob_dir_eq. cbv zeta.
  pose proof (has_magic_join dir_path "" Hm) as HP.
  change (Glob.has_magic "") with false in HP.
  destruct (negb _ && negb _); [|done].
  unfold Glob.has_magic in *.
  apply orb_false_elim in HP as [[H1 H2]%orb_false_elim H3].
  by rewrite !contains_rstrip.
Qed.

(** [*] matches every name. *)
Lemma fnmatch_star name : Fnmatch.fnmatch name "*" = true.
Proof.
  change (Fnmatch.matches [Fnmatch.Star] name = true).
  induction name as [|a r IH]; [reflexivity|].
  change (Fnmatch.matches [] (String a r) || Fnmatch.matches [Fnmatch.Star] r = true).
  by rewrite IH, orb_true_r.
Qed.

Lemma filter_all {A : Type} (f : A → bool) (l : list A) :
  (∀ x, f x = true) → List.filter f l = l.
Proof.
  intros Hf. induction l as [|x l IH]; [done|]. cbn [List.filter].
  by rewrite Hf, IH.
Qed.

(** An entry of [dirname] is [dirname] joined with a name of one
    component. *)
Lemma entry_name_Some dirname path name :
  Glob.entry_name dirname path = Some name
  ↔ name ≠ "" ∧ Str.contains "/" name = false ∧ path = OsPath.join dirname name.
Proof.
  unfold Glob.entry_name. cbv zeta. split.
  - destruct (Str.startswith _ path) eqn:Hpre; [|done].
    destruct (String.eqb_spec (Str.drop (String.length (OsPath.join dirname "")) path) "")
      as [|Hne]; [done|].
    destruct (Str.contains "/" _) eqn:Hsep; [done|]. cbn [andb negb].
    intros [= <-]. split_and!; [done..|].
    rewrite join_prefix by by apply startswith_sep_contains.
    by apply StrFacts.startswith_split.
  - intros (Hne & Hsep & ->).
    rewrite (join_prefix dirname name) by by apply startswith_sep_contains.
    rewrite StrFacts.startswith_append, StrFacts.drop_append, Hsep.
    by destruct (String.eqb_spec name "").
Qed.

Lemma visible_entry_spec dirname path :
  visible_entry dirname path = true
  ↔ ∃ name, path = OsPath.join dirname name ∧ star_matches name = true.
Proof.
  unfold visible_entry, star_matches, Glob.ishidden. split.
  - destruct (Glob.entry_name dirname path) as [name|] eqn:Hname; [|done].
    apply entry_name_Some in Hname as (Hne & Hsep & ->).
    intros Hvis. exists name. split; [done|]. rewrite Hsep, Hvis.
    by destruct (String.eqb_spec name "").
  - intros (name & -> & [[Hne Hsep]%andb_true_iff Hvis]%andb_true_iff).
    assert (Glob.entry_name dirname (OsPath.join dirname name) = Some name) as ->; [|done].
    apply entry_name_Some. split_and!; [|by apply negb_true_iff|done].
    intros ->. done.
Qed.

Lemma listing_paths dirname fs (h : string → string) :
  (∀ path name, Glob.entry_name dirname path = Some name → h name = path) →
  h <$> List.filter (λ x, negb (Glob.ishidden x)) (Glob.listdir fs dirname false)
  = List.filter (visible_entry dirname) (fst <$> fs).
Proof.
  intros Hh. unfold Glob.listdir, visible_entry.
  induction fs as [|[path nd] fs IH]; [done|].
  rewrite fmap_cons. cbn [omap list_omap List.filter fst snd andb].
  destruct (Glob.entry_name dirname path) as [name|] eqn:Hname;
    cbn [mbind option_bind List.filter]; [|exact IH].
  destruct (Glob.ishidden name); cbn [negb]; [exact IH|].
  rewrite fmap_cons. f_equal; [by apply Hh|exact IH].
Qed.

Lemma glob1_star fs dirname dironly :
  Glob.glob1 fs dirname "*" dironly
  = List.filter (λ x, negb (Glob.ishidden x)) (Glob.listdir fs dirname dironly).
Proof.
  unfold Glob.glob1. change (Glob.ishidden "*") with false. cbn [negb].
  apply filter_all, fnmatch_star.
Qed.

(** For a directory path without metacharacters, [glob] yields the
    visible entries of that directory, in enumeration order. *)
Lemma glob_paths_plain dir_path fs :
  Glob.has_magic dir_path = false →
  glob_paths (OsPath.join dir_path "*") fs
  = List.filter (visible_entry (glob_dir dir_path)) (fst <$> fs).
Proof.
  intros Hm. unfold glob_paths. cbn [Glob.iglob].
  rewrite split_join_star, (has_magic_join _ "*" Hm).
  change (Glob.has_magic "*") with true. cbn [negb].
  rewrite (glob_dir_plain _ Hm), andb_false_r.
  destruct (String.eqb_spec (glob_dir dir_path) "") as [->|Hne].
  - rewrite glob1_star, <- (list_fmap_id (List.filter _ (Glob.listdir _ _ _))).
    apply listing_paths. intros path name (_ & Hsep & ->)%entry_name_Some.
    unfold OsPath.join. by rewrite (startswith_sep_contains _ _ Hsep).
  - cbn [flat_map]. rewrite app_nil_r, glob1_star.
    apply listing_paths. by intros path name (_ & _ & ->)%entry_name_Some.
Qed.

(** The paths [glob] yields for [dir/*] are the [dir/name] that exist, for
    [name] a single component that is not hidden. *)
Lemma glob_paths_form dir_path fs fn :
  Glob.has_magic dir_path = false →
  fn ∈ glob_paths (OsPath.join dir_path "*") fs
  ↔ ∃ name, fn = OsPath.join (glob_dir dir_path) name
            ∧ star_matches name = true
            ∧ is_Some (fs_lookup fs fn).
Proof.
  intros Hm. rewrite (glob_paths_plain _ _ Hm).
  rewrite list_elem_of_In, filter_In, <- list_elem_of_In.
  rewrite visible_entry_spec, fs_lookup_is_Some. split.
  - intros [Hfs (name & -> & Hstar)]. by exists name.
  - intros (name & -> & Hstar & Hfs). split; [done|]. by exists name.
Qed.

Lemma glob_paths_elem dir_path name fs :
  Glob.has_magic dir_path = false →
  Str.contains "/" name = false →
  OsPath.join (glob_dir dir_path) name ∈ glob_paths (OsPath.join dir_path "*") fs
  ↔ OsPath.join (glob_dir dir_path) name ∈ fst <$> fs ∧ star_matches name = true.
Proof.
  intros Hmagic Hname. rewrite (glob_paths_form _ _ _ Hmagic), fs_lookup_is_Some. split.
  - intros (name' & Heq & Hstar & Hfs). split; [done|].
    apply (f_equal OsPath.basename) in Heq.
    rewrite !basename_join in Heq by (done || by apply star_matches_no_sep).
    by subst name'.
  - intros [Hfs Hstar]. by exists name.
Qed.

(** *** The fuel of [translate] and of [iglob] is never used up *)

Lemma length_drop n s : (String.length (Str.drop n s) ≤ String.length s)%nat.
Proof.
  revert s; induction n as [|n IH]; intros [|a s]; cbn [Str.drop String.length];
    try lia.
  specialize (IH s). lia.
Qed.

Lemma translate_fuel n : ∀ m pat,
  (String.length pat ≤ n)%nat → (String.length pat ≤ m)%nat →
  Fnmatch.translate n pat = Fnmatch.translate m pat.
Proof.
  induction n as [|n IH]; intros m pat Hn Hm.
  - destruct pat; [by destruct m|]. cbn [String.length] in Hn. lia.
  - destruct pat as [|c rest]; [by destruct m|].
    destruct m as [|m]; cbn [String.length] in Hn, Hm; [lia|].
    cbn [Fnmatch.translate]. rewrite (IH m rest) by lia.
    destruct (Fnmatch.set_end rest) as [j|]; [|done].
    rewrite (IH m (Str.drop (S j) rest)); [done|..];
      pose proof (length_drop (S j) rest); lia.
Qed.

Lemma find_from_bounds c s : ∀ k k',
  Fnmatch.find_from c k s = Some k' → (k ≤ k' < String.length s)%nat.
Proof.
  induction s as [|a s IH]; intros k k'; cbn [Fnmatch.find_from String.length];
    [done|].
  destruct k as [|k].
  - destruct (Ascii.eqb a c); [intros [= <-]; lia|].
    destruct (Fnmatch.find_from c 0 s) as [j|] eqn:Hj; [|done].
    intros [= <-]. apply IH in Hj. lia.
  - destruct (Fnmatch.find_from c k s) as [j|] eqn:Hj; [|done].
    intros [= <-]. apply IH in Hj. lia.
Qed.

Lemma split_ranges_fuel stuff n : ∀ m i k,
  (String.length stuff ≤ n + k)%nat → (String.length stuff ≤ m + k)%nat →
  Fnmatch.split_ranges (S n) stuff i k = Fnmatch.split_ranges (S m) stuff i k.
Proof.
  induction n as [|n IH]; intros m i k Hn Hm.
  - cbn [Fnmatch.split_ranges].
    destruct (Fnmatch.find_from "-" k stuff) as [k'|] eqn:Hk; [|done].
    apply find_from_bounds in Hk. lia.
  - change (Fnmatch.split_ranges (S (S n)) stuff i k)
      with (match Fnmatch.find_from "-" k stuff with
            | Some k' => Str.take (k' - i) (Str.drop i stuff)
                         :: Fnmatch.split_ranges (S n) stuff (k' + 1) (k' + 3)
            | None => [Str.drop i stuff]
            end).
    destruct m as [|m].
    + cbn [Fnmatch.split_ranges].
      destruct (Fnmatch.find_from "-" k stuff) as [k'|] eqn:Hk; [|done].
      apply find_from_bounds in Hk. lia.
    + change (Fnmatch.split_ranges (S (S m)) stuff i k)
        with (match Fnmatch.find_from "-" k stuff with
              | Some k' => Str.take (k' - i) (Str.drop i stuff)
                           :: Fnmatch.split_ranges (S m) stuff (k' + 1) (k' + 3)
              | None => [Str.drop i stuff]
              end).
      destruct (Fnmatch.find_from "-" k stuff) as [k'|] eqn:Hk; [|done].
      apply find_from_bounds in Hk. f_equal. apply IH; lia.
Qed.

Lemma startswith_take n s : Str.startswith (Str.take n s) s = true.
Proof.
  revert s; induction n as [|n IH]; intros [|a s]; cbn [Str.take Str.startswith];
    try done.
  by rewrite Ascii.eqb_refl.
Qed.

Lemma startswith_rstrip c s : Str.startswith (Str.rstrip c s) s = true.
Proof.
  induction s as [|a s IH]; [done|]. cbn [Str.rstrip].
  destruct (Str.rstrip c s) as [|b r].
  - destruct (Ascii.eqb a c); [done|]. cbn [Str.startswith]. by rewrite Ascii.eqb_refl.
  - cbn [Str.startswith] in IH |- *. by rewrite Ascii.eqb_refl.
Qed.

Lemma startswith_length p s :
  Str.startswith p s = true →
  (String.length p ≤ String.length s)%nat
  ∧ (String.length p = String.length s → p = s).
Proof.
  intros H%StrFacts.startswith_split.
  remember (Str.drop (String.length p) s) as d eqn:Hd. clear Hd. subst s.
  rewrite StrFacts.length_append. split; [lia|]. intros Heq.
  destruct d; [by rewrite append_nil_r|]. cbn [String.length] in Heq. lia.
Qed.

(** The directory part [os.path.split] returns is the path itself or is
    shorter. *)
Lemma split_head_shorter p :
  fst (OsPath.split p) ≠ p →
  (String.length (fst (OsPath.split p)) < String.length p)%nat.
Proof.
  unfold OsPath.split, Str.slice_to. cbn [fst].
  set (head := Str.take _ p).
  assert (Str.startswith head p = true) as Hhead by apply startswith_take.
  assert (∀ h, Str.startswith h p = true → h ≠ p →
               (String.length h < String.length p)%nat) as Hshort.
  { intros h [Hle Heq]%startswith_length Hne.
    destruct (decide (String.length h = String.length p)) as [Hlen|]; [|lia].
    by destruct Hne, Heq. }
  destruct (negb _ && negb _); apply Hshort; [|done].
  by apply StrFacts.startswith_trans with head; [apply startswith_rstrip|].
Qed.

Lemma iglob_fuel n : ∀ m fs pathname dironly,
  (String.length pathname < n)%nat → (String.length pathname < m)%nat →
  Glob.iglob n fs pathname dironly = Glob.iglob m fs pathname dironly.
Proof.
  induction n as [|n IH]; intros m fs pathname dironly Hn Hm; [lia|].
  destruct m as [|m]; [lia|]. cbn [Glob.iglob].
  pose proof (split_head_shorter pathname) as Hshort.
  destruct (OsPath.split pathname) as [dirname basename]. cbn [fst] in Hshort.
  destruct (negb (Glob.has_magic pathname)); [done|].
  destruct (String.eqb dirname ""); [done|].
  destruct (String.eqb_spec dirname pathname) as [|Hne]; cbn [negb andb]; [done|].
  destruct (Glob.has_magic dirname); [|done].
  specialize (Hshort Hne). rewrite (IH m fs dirname true) by lia. done.
Qed.

(** [glob] is computed by [iglob] whatever fuel above the length of the
    pattern it is given. *)
Lemma glob_paths_fuel n pattern fs :
  (String.length pattern < n)%nat →
  Glob.iglob n fs pattern false = glob_paths pattern fs.
Proof. intros Hn. apply iglob_fuel; [done|lia]. Qed.

(** ** [Bucket.upload_dir] with [clear_dest_dir=True] *)

Section BucketUpload.

Variable denies : list request → request → bool.
Hypothesis Hno : never_denies denies.





End BucketUpload.




(** ** Batches that fail part-way *)

Lemma move_files_unfold denies bucket_name src dst (clear : bool) w :
  Bucket.move_files denies bucket_name src dst clear w
  = match (if clear then Bucket.clear_dir denies (Str.strip "/" dst)
           else mret ()) w with
    | (inr _, wc) =>
        if denies (journal wc) (S3ListObjects (Str.strip "/" src))
        then (inl (ClientError "AccessDenied"), wc)
        else for_each (List.filter (Str.startswith (Str.strip "/" src))
                         (sorted_keys (objects wc)))
               (Bucket.move_files_body denies bucket_name
                  (Str.strip "/" src) (Str.strip "/" dst))
               (log_request (S3ListObjects (Str.strip "/" src)) wc)
    | (inl e, wc) => (inl e, wc)
    end.
Proof.
  unfold Bucket.move_files. rewrite bind_run.
  destruct ((if clear then Bucket.clear_dir denies (Str.strip "/" dst)
             else mret ()) w) as [[e|[]] wc]; [done|].
  rewrite bind_run. unfold Env.objects_filter, Env.refused.
  by destruct (denies _ _).
Qed.

Lemma move_files_body_eq denies bucket_name s d k w :
  Bucket.move_files_body denies bucket_name s d k w
  = if is_marker s k then (inr (), w)
    else
      let w1 := {| files := files w; objects := objects w;
                   stdout := stdout w ++ ["copying " +:+ bucket_name +:+ "/" +:+ k];
                   journal := journal w |} in
      if denies (journal w) (S3CopyObject k (dest_key d k))
      then (inl (ClientError "AccessDenied"), w1)
      else match objects w !! k with
           | None => (inl (ClientError "NoSuchKey"), w1)
           | Some o =>
               if String.eqb k (dest_key d k)
               then (inl (ClientError "InvalidRequest"), w1)
               else
                 let w2 := log_request (S3CopyObject k (dest_key d k))
                             (set_objects (<[dest_key d k := o]> (objects w)) w1) in
                 if denies (journal w2) (S3DeleteObject k)
                 then (inl (ClientError "AccessDenied"), w2)
                 else (inr (), log_request (S3DeleteObject k)
                                 (set_objects (delete k (objects w2)) w2))
           end.
Proof.
  unfold Bucket.move_files_body, is_marker.
  destruct (String.eqb _ _); [done|].
  rewrite bind_run, print_run, bind_run. cbv zeta.
  unfold Env.copy_from at 1, Env.refused. cbn [journal objects].
  fold (dest_key d k). destruct (denies _ _); [done|].
  destruct (objects w !! k); [|done].
  destruct (String.eqb k (dest_key d k)); [done|].
  unfold Env.delete_object, Env.refused. by destruct (denies _ _).
Qed.

Section Abort.

Variable denies : list request → request → bool.

Lemma bucket_clear_dir_body_eq key w :
  Bucket.clear_dir_body denies key w
  = let w1 := {| files := files w; objects := objects w;
                 stdout := stdout w ++ ["deleting " +:+ key];
                 journal := journal w |} in
    if denies (journal w) (S3DeleteObject key)
    then (inl (ClientError "AccessDenied"), w1)
    else (inr (), log_request (S3DeleteObject key)
                    (set_objects (delete key (objects w)) w1)).
Proof. reflexivity. Qed.

(** The iterations of [clear_dir] that completed have deleted their keys,
    whatever the environment refuses elsewhere. *)
Lemma clear_dir_loop_done ks : ∀ w w',
  for_each ks (Bucket.clear_dir_body denies) w = (inr (), w') →
  objects w' = delete_keys ks (objects w).
Proof.
  induction ks as [|k ks IH]; intros w w'.
  - by intros [= <-].
  - rewrite for_each_cons, bucket_clear_dir_body_eq. cbv zeta.
    destruct (denies _ _); [done|]. intros H. by rewrite (IH _ _ H).
Qed.

Lemma clear_dir_body_failed key w e w' :
  Bucket.clear_dir_body denies key w = (inl e, w') → objects w' = objects w.
Proof.
  rewrite bucket_clear_dir_body_eq. cbv zeta. destruct (denies _ _); [|done].
  by intros [= _ <-].
Qed.

Lemma objects_filter_objects prefix w ks w' :
  Env.objects_filter denies prefix w = (inr ks, w') → objects w' = objects w.
Proof.
  unfold Env.objects_filter. destruct (Env.refused _ _ _); [done|].
  by intros [= _ <-].
Qed.

(** An upload that completed has stored the file under its key and left
    the rest alone; one that raised has left bucket and files alone. *)
Lemma upload_dir_body_done d fn w w' :
  Bucket.upload_dir_body denies d fn w = (inr (), w') →
  ∃ data, fs_lookup (files w) fn = Some (RegFile data)
          ∧ files w' = files w
          ∧ objects w'
            = <[d +:+ "/" +:+ OsPath.basename fn := S3Object data (content_type fn)]>
                (objects w).
Proof.
  unfold Bucket.upload_dir_body. rewrite upload_file_cases.
  destruct (fs_lookup (files w) fn) as [[data|]|]; [|done..].
  destruct (denies _ _); [done|]. destruct (String.eqb _ _); [done|].
  destruct (denies _ _); [done|]. intros [= <-]. by exists data.
Qed.

Lemma upload_dir_body_failed d fn w e w' :
  Bucket.upload_dir_body denies d fn w = (inl e, w') →
  files w' = files w ∧ objects w' = objects w.
Proof.
  unfold Bucket.upload_dir_body. rewrite upload_file_cases.
  destruct (fs_lookup (files w) fn) as [[data|]|]; [|by intros [= _ <-]..].
  destruct (denies _ _); [by intros [= _ <-]|].
  destruct (String.eqb _ _); [by intros [= _ <-]|].
  destruct (denies _ _); [by intros [= _ <-]|done].
Qed.

(** The iterations of [upload_dir] that completed: every file they were
    given is stored under its key, with the content and content type of the
    last file of that base name, and no other key has changed. *)
Lemma upload_dir_loop_done d fns : ∀ w w',
  for_each fns (Bucket.upload_dir_body denies d) w = (inr (), w') →
  files w' = files w
  ∧ (∀ fn, fn ∈ fns →
       ∃ fn2 data, fn2 ∈ fns
                   ∧ OsPath.basename fn2 = OsPath.basename fn
                   ∧ fs_lookup (files w) fn2 = Some (RegFile data)
                   ∧ objects w' !! (d +:+ "/" +:+ OsPath.basename fn)
                     = Some (S3Object data (content_type fn2)))
  ∧ (∀ x, (∀ fn, fn ∈ fns → x ≠ d +:+ "/" +:+ OsPath.basename fn) →
          objects w' !! x = objects w !! x).
Proof.
  induction fns as [|h t IH]; intros w w'.
  - intros [= <-]. split_and!; [done| |done]. by intros fn ?%elem_of_nil.
  - rewrite for_each_cons.
    destruct (Bucket.upload_dir_body denies d h w) as [[e|[]] wa] eqn:Hh; [done|].
    apply upload_dir_body_done in Hh as (data & Hdata & Hfa & Hoa).
    intros (Hf & Hcontent & Hframe)%IH. rewrite Hfa in Hf, Hcontent.
    split_and!; [done| |].
    + intros fn Hfn.
      destruct (decide (OsPath.basename fn ∈ OsPath.basename <$> t)) as [Hin|Hnin].
      * apply list_elem_of_fmap in Hin as (fn' & Heq & Hfn').
        destruct (Hcontent fn' Hfn') as (fn2 & data2 & Hfn2 & Hb & Hd2 & Ho2).
        exists fn2, data2. rewrite Heq. split_and!; [by right|congruence|done..].
      * assert (fn = h) as ->.
        { apply elem_of_cons in Hfn as [?|Hfn]; [done|].
          destruct Hnin. apply list_elem_of_fmap. by exists fn. }
        exists h, data. split_and!; [by left|done..|].
        rewrite Hframe, Hoa; [apply lookup_insert_eq|].
        intros fn' Hfn' Heq. apply Hnin, list_elem_of_fmap. exists fn'.
        split; [|done]. apply (inj (String.append d)) in Heq.
        by apply (inj (String.append "/")) in Heq.
    + intros x Hx. rewrite Hframe, Hoa.
      * rewrite lookup_insert_ne; [done|]. intros Heq. by apply (Hx h); [left|].
      * intros fn Hfn. apply Hx. by right.
Qed.

Variable bucket_name : string.

(** A move that completed has carried out its step; one that raised has
    left the bucket alone or has made the copy without the delete. *)
Lemma move_files_body_done s d k w w' :
  Bucket.move_files_body denies bucket_name s d k w = (inr (), w') →
  files w' = files w ∧ objects w' = move_step s d k (objects w).
Proof.
  rewrite move_files_body_eq. unfold move_step.
  destruct (is_marker s k); [by intros [= <-]|]. cbv zeta.
  destruct (denies _ _); [done|].
  destruct (objects w !! k) as [o|]; [|done].
  destruct (String.eqb _ _); [done|].
  destruct (denies _ _); [done|]. by intros [= <-].
Qed.

Lemma move_files_body_failed s d k w e w' :
  Bucket.move_files_body denies bucket_name s d k w = (inl e, w') →
  files w' = files w
  ∧ (objects w' = objects w
     ∨ ∃ o, objects w !! k = Some o
            ∧ objects w' = <[dest_key d k := o]> (objects w)).
Proof.
  rewrite move_files_body_eq.
  destruct (is_marker s k); [done|]. cbv zeta.
  destruct (denies _ _); [intros [= _ <-]; split; [done|by left]|].
  destruct (objects w !! k) as [o|]; [|intros [= _ <-]; split; [done|by left]].
  destruct (String.eqb _ _); [intros [= _ <-]; split; [done|by left]|].
  destruct (denies _ _); [|done].
  intros [= _ <-]. split; [done|]. right. by exists o.
Qed.

(** The iterations of [move_files] that completed have moved their keys. *)
Lemma move_files_loop_done s d ks : ∀ w w',
  for_each ks (Bucket.move_files_body denies bucket_name s d) w = (inr (), w') →
  files w' = files w ∧ objects w' = move_keys s d ks (objects w).
Proof.
  induction ks as [|k ks IH]; intros w w'.
  - by intros [= <-].
  - rewrite for_each_cons.
    destruct (Bucket.move_files_body denies bucket_name s d k w) as [[e|[]] wa] eqn:Hk;
      [done|].
    apply move_files_body_done in Hk as [Hfa Hoa].
    intros [Hf Ho]%IH. cbn [move_keys]. by rewrite Hf, Ho, Hfa, Hoa.
Qed.

End Abort.

(** C7.  In each of the three batch operations, when the iterations before
    some unit of work have completed and that unit raises, the operation
    raises the same exception and its final world is the one that unit left:
    no later iteration runs and nothing is caught.  What the completed
    iterations did stays done.  For [clear_dir] their keys are deleted and
    all other objects are as they were.  For [upload_dir] every file they
    were given is in the bucket under [prefix/basename] with its content,
    and no other key has changed.  For [move_files] their keys have been
    moved, and the key of the failing unit is untouched or has been copied
    without being deleted. *)
Theorem batch_aborts_at_first_error denies bucket_name :
  (∀ p w ks1 k ks2 w0 w1 e w2,
      Env.objects_filter denies (Str.strip "/" p) w = (inr (ks1 ++ k :: ks2), w0) →
      for_each ks1 (Bucket.clear_dir_body denies) w0 = (inr (), w1) →
      Bucket.clear_dir_body denies k w1 = (inl e, w2) →
      Bucket.clear_dir denies p w = (inl e, w2)
      ∧ objects w2 = delete_keys ks1 (objects w))
  ∧ (∀ src dst (clear : bool) w wp fns1 fn fns2 w1 e w2,
      (if clear then Bucket.clear_dir denies (Str.strip "/" dst) else mret ()) w
      = (inr (), wp) →
      glob_paths (OsPath.join src "*") (files wp) = fns1 ++ fn :: fns2 →
      for_each fns1 (Bucket.upload_dir_body denies (Str.strip "/" dst)) wp
      = (inr (), w1) →
      Bucket.upload_dir_body denies (Str.strip "/" dst) fn w1 = (inl e, w2) →
      Bucket.upload_dir denies src dst clear w = (inl e, w2)
      ∧ files w2 = files wp
      ∧ (∀ fn1, fn1 ∈ fns1 →
           ∃ fn2 data,
             fn2 ∈ fns1
             ∧ OsPath.basename fn2 = OsPath.basename fn1
             ∧ fs_lookup (files wp) fn2 = Some (RegFile data)
             ∧ objects w2 !! (Str.strip "/" dst +:+ "/" +:+ OsPath.basename fn1)
               = Some (S3Object data (content_type fn2)))
      ∧ (∀ x, (∀ fn1, fn1 ∈ fns1 →
                      x ≠ Str.strip "/" dst +:+ "/" +:+ OsPath.basename fn1) →
              objects w2 !! x = objects wp !! x))
  ∧ (∀ src dst (clear : bool) w wp ks1 k ks2 w0 w1 e w2,
      (if clear then Bucket.clear_dir denies (Str.strip "/" dst) else mret ()) w
      = (inr (), wp) →
      Env.objects_filter denies (Str.strip "/" src) wp = (inr (ks1 ++ k :: ks2), w0) →
      for_each ks1
        (Bucket.move_files_body denies bucket_name (Str.strip "/" src) (Str.strip "/" dst))
        w0 = (inr (), w1) →
      Bucket.move_files_body denies bucket_name (Str.strip "/" src) (Str.strip "/" dst)
        k w1 = (inl e, w2) →
      Bucket.move_files denies bucket_name src dst clear w = (inl e, w2)
      ∧ objects w1 = move_keys (Str.strip "/" src) (Str.strip "/" dst) ks1 (objects wp)
      ∧ (objects w2 = objects w1
         ∨ ∃ o, objects w1 !! k = Some o
                ∧ objects w2 = <[dest_key (Str.strip "/" dst) k := o]> (objects w1))).
Proof.
  split_and!.
  - intros p w ks1 k ks2 w0 w1 e w2 Hlist Hdone Hfail. split.
    + unfold Bucket.clear_dir. rewrite bind_run, Hlist.
      by apply for_each_abort with w1.
    + rewrite (clear_dir_body_failed _ _ _ _ _ Hfail).
      rewrite (clear_dir_loop_done _ _ _ _ Hdone).
      by rewrite (objects_filter_objects _ _ _ _ _ Hlist).
  - intros src dst clear w wp fns1 fn fns2 w1 e w2 Hpre Hglob Hdone Hfail.
    split.
    { unfold Bucket.upload_dir.
      destruct clear; rewrite bind_run, Hpre, bind_run; unfold glob at 1;
        rewrite Hglob; by apply for_each_abort with w1. }
    apply upload_dir_loop_done in Hdone as (Hf & Hcontent & Hframe).
    apply upload_dir_body_failed in Hfail as [Hf2 Ho2].
    rewrite Ho2, Hf2. done.
  - intros src dst clear w wp ks1 k ks2 w0 w1 e w2 Hpre Hlist Hdone Hfail.
    split.
    { unfold Bucket.move_files.
      destruct clear; rewrite bind_run, Hpre, bind_run, Hlist;
        by apply for_each_abort with w1. }
    apply move_files_loop_done in Hdone as [_ Hdone].
    apply move_files_body_failed in Hfail as [_ Hfail].
    by rewrite Hdone, (objects_filter_objects _ _ _ _ _ Hlist) in *.
Qed.

Lemma batch_aborts_witness :
  (∃ w2, Bucket.clear_dir (deny_delete "a/x.csv") "a" sample_world
         = (inl (ClientError "AccessDenied"), w2)
         ∧ objects w2 = delete_keys ["a/"; "a/sub/y.txt"] sample_bucket
         ∧ is_Some (objects w2 !! "ab/z.csv"))
  ∧ (∃ w2, Bucket.upload_dir no_faults "out" "dest" false sample_world
           = (inl IsADirectoryError, w2)
           ∧ objects w2 !! "dest/a.txt" = Some (S3Object "A" "text/plain"))
  ∧ (∃ w2, Bucket.move_files (deny_delete "a/x.csv") "bk" "a" "b" false sample_world
           = (inl (ClientError "AccessDenied"), w2)
           ∧ (objects w2 = move_keys "a" "b" ["a/"; "a/sub/y.txt"] sample_bucket
              ∨ ∃ o, objects w2
                     = <[dest_key "b" "a/x.csv" := o]>
                         (move_keys "a" "b" ["a/"; "a/sub/y.txt"] sample_bucket))).
Proof.
  destruct (batch_aborts_at_first_error (deny_delete "a/x.csv") "bk")
    as (Hclear & _ & Hmove).
  destruct (batch_aborts_at_first_error no_faults "bk") as (_ & Hupload & _).
  split_and!.
  - edestruct (Hclear "a" sample_world ["a/"; "a/sub/y.txt"] "a/x.csv" ["ab/z.csv"])
      as [Hrun Hobjs]; [reflexivity..|].
    eexists. split; [exact Hrun|]. split; [exact Hobjs|].
    rewrite Hobjs. by vm_compute; eexists.
  - edestruct (Hupload "out" "dest" false sample_world sample_world
                 ["out/a.txt"] "out/b" [])
      as (Hrun & _ & Hcontent & _); [reflexivity..|].
    eexists. split; [exact Hrun|].
    destruct (Hcontent "out/a.txt") as (fn2 & data & Hfn2 & _ & Hdata & Hobj);
      [by left|].
    apply list_elem_of_singleton in Hfn2 as ->.
    vm_compute in Hdata. injection Hdata as <-. exact Hobj.
  - edestruct (Hmove "a" "b" false sample_world sample_world
                 ["a/"; "a/sub/y.txt"] "a/x.csv" ["ab/z.csv"])
      as (Hrun & Hdone & Hfail); [vm_compute; reflexivity..|].
    eexists. split; [exact Hrun|].
    destruct Hfail as [Hfail|(o & _ & Hfail)].
    + left. by rewrite Hfail, Hdone.
    + right. exists o. by rewrite Hfail, Hdone.
Defined.

(** A refused delete in [move_files]: the keys before it are moved, the key
    itself has been copied and is now at both places, the keys after it are
    untouched. *)
Example move_files_partial :
  let r := Bucket.move_files (deny_delete "a/sub/y.txt") "bk" "a" "b" false sample_world in
  fst r = inl (ClientError "AccessDenied")
  ∧ journal (snd r)
    = [S3ListObjects "a"; S3CopyObject "a/sub/y.txt" "b/y.txt"]
  ∧ objects (snd r) !! "a/sub/y.txt" = Some (S3Object "y" "text/plain")
  ∧ objects (snd r) !! "b/y.txt" = Some (S3Object "y" "text/plain")
  ∧ objects (snd r) !! "a/x.csv" = Some (S3Object "1,2" "text/csv")
  ∧ objects (snd r) !! "b/x.csv" = None.
Proof. by vm_compute. Qed.

(** * Further properties *)

(** ** [content_type] *)

Lemma basename_final_segment f : OsPath.basename f = Spec.final_segment f.
Proof.
  destruct (final_segment_split f) as (dir & Hf & _ & Hsep).
  unfold OsPath.basename, Str.slice_from. rewrite Hsep.
  replace (Z.to_nat (Z.of_nat (String.length dir) - 1 + 1))
    with (String.length dir) by lia.
  rewrite Hf at 1. apply StrFacts.drop_append.
Qed.

Lemma final_segment_no_sep f : Str.contains "/" f = false → Spec.final_segment f = f.
Proof.
  intros H. unfold Spec.final_segment. by rewrite (StrFacts.after_last_absent _ _ H).
Qed.

(** X1.  The content type of a path is that of its base name: directories
    on the way, with or without dots in their names, play no part. *)
Theorem content_type_basename f :
  content_type f = content_type (OsPath.basename f).
Proof.
  rewrite !content_type_lookup. unfold extension_past_leading_dots.
  rewrite basename_final_segment.
  destruct (final_segment_split f) as (_ & _ & Hseg & _).
  by rewrite (final_segment_no_sep _ Hseg).
Qed.

(** X2.  A name [stem.ext], where [ext] holds no dot and no slash and the
    final segment of [stem] has a character other than a dot, gets the
    table's entry for [ext], or the fallback when the table has none. *)
Theorem content_type_stem_ext stem ext
    (Hext : Str.contains "." ext = false ∧ Str.contains "/" ext = false)
    (Hstem : Str.all_chars "." (Spec.final_segment stem) = false) :
  content_type (stem +:+ "." +:+ ext)
  = default "application/octet-stream" (content_type_map !! ext).
Proof.
  destruct Hext as [Hdot Hsep].
  rewrite content_type_lookup. unfold extension_past_leading_dots.
  assert (Spec.final_segment (stem +:+ "." +:+ ext)
          = Spec.final_segment stem +:+ "." +:+ ext) as ->.
  { unfold Spec.final_segment.
    destruct (StrFacts.split_at_last "/" stem) as [H|(u & t & -> & Ht)].
    - rewrite (StrFacts.after_last_absent _ _ H).
      rewrite StrFacts.after_last_absent; [done|].
      rewrite StrFacts.contains_append, H. cbn [String.append Str.contains].
      by rewrite Hsep.
    - rewrite (StrFacts.after_last_append _ _ _ Ht).
      rewrite StrFacts.append_assoc. cbn [String.append].
      rewrite StrFacts.after_last_append; [done|].
      rewrite StrFacts.contains_append, Ht. cbn [String.append Str.contains].
      by rewrite Hsep. }
  cbn [String.append]. rewrite (after_last_lstrip_dots _ _ Hdot).
  by rewrite Hstem.
Qed.

Lemma content_type_stem_ext_witness :
  (Str.contains "." "csv" = false ∧ Str.contains "/" "csv" = false)
  ∧ Str.all_chars "." (Spec.final_segment "reports.d/2024.q1") = false
  ∧ content_type ("reports.d/2024.q1" +:+ "." +:+ "csv")
    = default "application/octet-stream" (content_type_map !! "csv").
Proof.
  assert (Str.contains "." "csv" = false ∧ Str.contains "/" "csv" = false)
    as Hext by done.
  split; [exact Hext|]. split; [reflexivity|].
  exact (content_type_stem_ext "reports.d/2024.q1" "csv" Hext eq_refl).
Defined.

Lemma content_type_map_lookup (ext : string) :
  content_type_map !! ext
  = if decide (ext = "html") then Some "text/html"
    else if decide (ext = "csv") then Some "text/csv"
    else if decide (ext = "txt") then Some "text/plain"
    else if decide (ext = "xlsx")
         then Some "application/vnd.openxmlformats-officedocument.spreadsheetml.sheet"
    else if decide (ext = "pkl") then Some "application/octet-stream"
    else None.
Proof.
  unfold content_type_map. cbn [list_to_map foldr uncurry fst snd].
  rewrite !lookup_insert, lookup_empty.
  repeat (case_decide; subst; try done).
Qed.

(** X3.  The lookup is an exact, case-sensitive match: [content_type]
    answers [text/html], [text/csv], [text/plain] or the spreadsheet type
    exactly when the extension is [html], [csv], [txt] or [xlsx], and
    ["application/octet-stream"] for every other extension, [pkl]
    included. *)
Theorem content_type_values f :
  let ext := extension_past_leading_dots f in
  (content_type f = "text/html" ↔ ext = "html")
  ∧ (content_type f = "text/csv" ↔ ext = "csv")
  ∧ (content_type f = "text/plain" ↔ ext = "txt")
  ∧ (content_type f
     = "application/vnd.openxmlformats-officedocument.spreadsheetml.sheet"
     ↔ ext = "xlsx")
  ∧ (content_type f = "application/octet-stream"
     ↔ ext ≠ "html" ∧ ext ≠ "csv" ∧ ext ≠ "txt" ∧ ext ≠ "xlsx").
Proof.
  intros ext. rewrite content_type_lookup. fold ext. clearbody ext.
  rewrite content_type_map_lookup.
  repeat case_decide; subst; cbn [default id];
    split_and!; split; intros; try congruence;
    try (split_and!; congruence); try (destruct_and?; congruence).
Qed.

(** ** [chg_nonnum] *)

(** X4.  When [chg_nonnum] returns, the result is [val] itself, which is
    then a number and not NaN, or it is [sub_val]; so with a substitute
    that is not NaN the result is never NaN. *)
Theorem chg_nonnum_result val sub_val r
    (Hr : chg_nonnum val sub_val = inr r) :
  ((r = val ∧ is_Number val = true ∧ val ≠ PyFloat S754_nan) ∨ r = sub_val)
  ∧ (sub_val ≠ PyFloat S754_nan → r ≠ PyFloat S754_nan).
Proof.
  unfold chg_nonnum in Hr.
  destruct val as [|b|n|x|re im|s]; cbn in Hr; simplify_eq; try (split; [by right|done]).
  - split; [by left|done].
  - destruct (int_too_large_for_float n); simplify_eq. split; [by left|done].
  - destruct x; simplify_eq; try (split; [by left|done]). split; [by right|done].
Qed.

Lemma chg_nonnum_result_witness :
  chg_nonnum (PyFloat S754_nan) (PyInt 0) = inr (PyInt 0)
  ∧ (PyInt 0 ≠ PyFloat S754_nan → PyInt 0 ≠ PyFloat S754_nan).
Proof.
  split; [reflexivity|].
  exact (proj2 (chg_nonnum_result (PyFloat S754_nan) (PyInt 0) (PyInt 0) eq_refl)).
Defined.

(** ** [Bucket.upload_file] *)

(** X6.  When [upload_file] returns, the local file was a regular file, and
    the bucket holds at [dest_key] an object with the file's content and
    the content type inferred from the local path (not from the key);
    nothing else in the bucket or on disk has changed, and one line was
    printed. *)
Theorem upload_file_success denies file_path dest_key w w'
    (Hrun : Bucket.upload_file denies file_path dest_key w = (inr (), w')) :
  ∃ data,
    fs_lookup (files w) file_path = Some (RegFile data)
    ∧ objects w' = <[dest_key := S3Object data (content_type file_path)]> (objects w)
    ∧ files w' = files w
    ∧ stdout w' = stdout w ++ ["uploaded " +:+ file_path +:+ " with Content Type: "
                                +:+ content_type file_path]
    ∧ journal w' = journal w ++ [FsOpen file_path; S3PutObject dest_key].
Proof.
  rewrite upload_file_cases in Hrun.
  destruct (fs_lookup (files w) file_path) as [[data|]|]; [|done..].
  destruct (denies _ _); [done|]. destruct (String.eqb _ _); [done|].
  destruct (denies _ _); [done|].
  injection Hrun as <-. by exists data.
Qed.

Lemma upload_file_success_witness :
  ∃ w', Bucket.upload_file no_faults "out/a.txt" "x/renamed.bin" sample_world
        = (inr (), w')
        ∧ objects w' !! "x/renamed.bin" = Some (S3Object "A" "text/plain").
Proof.
  eexists. split; [reflexivity|].
  edestruct (upload_file_success no_faults "out/a.txt" "x/renamed.bin" sample_world)
    as (data & Hdata & Hobj & _); [reflexivity|].
  rewrite Hobj, lookup_insert_eq. by injection Hdata as <-.
Defined.

(** ** [Bucket.clear_dir] *)

Lemma bucket_clear_dir_eq denies p w :
  Bucket.clear_dir denies p w
  = if denies (journal w) (S3ListObjects (Str.strip "/" p))
    then (inl (ClientError "AccessDenied"), w)
    else for_each (List.filter (Str.startswith (Str.strip "/" p))
                     (sorted_keys (objects w)))
           (Bucket.clear_dir_body denies)
           (log_request (S3ListObjects (Str.strip "/" p)) w).
Proof.
  unfold Bucket.clear_dir. rewrite bind_run.
  unfold Env.objects_filter, Env.refused. by destruct (denies _ _).
Qed.

(** X8.  However [Bucket.clear_dir] ends, it leaves the local files alone,
    and every key of the bucket either keeps its object or, if it starts
    with the stripped prefix, is gone: nothing is created, changed, or
    removed outside the prefix. *)
Theorem bucket_clear_dir_frame denies p w k :
  let w' := snd (Bucket.clear_dir denies p w) in
  files w' = files w
  ∧ (objects w' !! k = objects w !! k
     ∨ (objects w' !! k = None ∧ Str.startswith (Str.strip "/" p) k = true)).
Proof.
  intros w'. subst w'. rewrite bucket_clear_dir_eq.
  destruct (denies _ _); [split; [done|by left]|].
  apply (for_each_invariant
           (λ w1, files w1 = files w
                  ∧ (objects w1 !! k = objects w !! k
                     ∨ (objects w1 !! k = None
                        ∧ Str.startswith (Str.strip "/" p) k = true))));
    [|split; [done|by left]].
  intros x w1 Hx [Hf Ho]. rewrite bucket_clear_dir_body_eq. cbv zeta.
  destruct (denies _ _); [done|]. split; [done|].
  cbn [snd objects log_request set_objects].
  destruct (decide (x = k)) as [->|Hne].
  - right. split; [apply lookup_delete_eq|].
    apply list_elem_of_In, filter_In in Hx. tauto.
  - by rewrite lookup_delete_ne.
Qed.

(** X9.  [Bucket.clear_dir] is idempotent: after a run that no request
    refused, a second run lists the prefix, finds nothing, deletes nothing
    and prints nothing. *)
Theorem bucket_clear_dir_idempotent denies p w
    (Hno : never_denies denies) :
  Bucket.clear_dir denies p (snd (Bucket.clear_dir denies p w))
  = (inr (), log_request (S3ListObjects (Str.strip "/" p))
               (snd (Bucket.clear_dir denies p w))).
Proof.
  pose proof (clear_dir_lookup denies Hno p w) as Hlook.
  set (w1 := snd (Bucket.clear_dir denies p w)) in *.
  rewrite (clear_dir_run denies Hno p w1).
  assert (List.filter (Str.startswith (Str.strip "/" p)) (sorted_keys (objects w1)) = [])
    as ->.
  { apply elem_of_nil_inv. intros k [[o Ho] Hk]%listing_elem.
    rewrite Hlook, Hk in Ho. done. }
  destruct w1. cbn. by rewrite app_nil_r.
Qed.

Lemma bucket_clear_dir_idempotent_witness :
  never_denies no_faults
  ∧ objects (snd (Bucket.clear_dir no_faults "a"
                    (snd (Bucket.clear_dir no_faults "a" sample_world))))
    = objects (snd (Bucket.clear_dir no_faults "a" sample_world)).
Proof.
  split; [exact no_faults_never_denies|].
  exact (f_equal (λ r, objects (snd r))
           (bucket_clear_dir_idempotent no_faults "a" sample_world
              no_faults_never_denies)).
Defined.

(** ** Slashes around a prefix *)

Lemma rstrip_snoc c s : Str.rstrip c (s +:+ String c "") = Str.rstrip c s.
Proof.
  induction s as [|a s IH].
  - cbn. by rewrite Ascii.eqb_refl.
  - cbn [String.append Str.rstrip]. by rewrite IH.
Qed.

Lemma strip_snoc c s : Str.strip c (s +:+ String c "") = Str.strip c s.
Proof.
  unfold Str.strip. induction s as [|a s IH].
  - cbn. by rewrite Ascii.eqb_refl.
  - cbn [String.append Str.lstrip].
    destruct (Ascii.eqb a c); [exact IH|].
    apply (rstrip_snoc c (String a s)).
Qed.

Lemma strip_cons c s : Str.strip c (String c s) = Str.strip c s.
Proof. unfold Str.strip. cbn [Str.lstrip]. by rewrite Ascii.eqb_refl. Qed.

(** X10.  A prefix written with a leading and a trailing slash denotes the
    same prefix: each bucket operation does the same with [/p/] as with
    [p]. *)
Theorem prefix_slashes_ignored denies bucket_name src p q (clear : bool) w :
  Bucket.clear_dir denies ("/" +:+ p +:+ "/") w = Bucket.clear_dir denies p w
  ∧ Bucket.upload_dir denies src ("/" +:+ p +:+ "/") clear w
    = Bucket.upload_dir denies src p clear w
  ∧ Bucket.move_files denies bucket_name ("/" +:+ p +:+ "/") ("/" +:+ q +:+ "/") clear w
    = Bucket.move_files denies bucket_name p q clear w.
Proof.
  assert (∀ s, Str.strip "/" ("/" +:+ s +:+ "/") = Str.strip "/" s) as Hstrip.
  { intros s. cbn [String.append]. by rewrite strip_cons, strip_snoc. }
  unfold Bucket.clear_dir, Bucket.upload_dir, Bucket.move_files.
  by rewrite !Hstrip.
Qed.

(** ** [Bucket.upload_dir] *)

Lemma upload_dir_unfold denies src_dir_local dest_dir (clear : bool) w :
  Bucket.upload_dir denies src_dir_local dest_dir clear w
  = match (if clear then Bucket.clear_dir denies (Str.strip "/" dest_dir)
           else mret ()) w with
    | (inr _, wc) =>
        for_each (glob_paths (OsPath.join src_dir_local "*") (files wc))
          (Bucket.upload_dir_body denies (Str.strip "/" dest_dir)) wc
    | (inl e, wc) => (inl e, wc)
    end.
Proof. by destruct clear. Qed.

(** However [Bucket.clear_dir] ends, the local files and the keys that do
    not start with the stripped prefix are as before. *)
Lemma bucket_clear_dir_keeps denies p w :
  files (snd (Bucket.clear_dir denies p w)) = files w
  ∧ ∀ k, Str.startswith (Str.strip "/" p) k = false →
         objects (snd (Bucket.clear_dir denies p w)) !! k = objects w !! k.
Proof.
  rewrite bucket_clear_dir_eq. destruct (denies _ _); [done|].
  apply (for_each_invariant
           (λ w1, files w1 = files w
                  ∧ ∀ k, Str.startswith (Str.strip "/" p) k = false →
                         objects w1 !! k = objects w !! k)); [|done].
  intros x w1 Hx [Hf Ho]. rewrite bucket_clear_dir_body_eq. cbv zeta.
  destruct (denies _ _); [done|]. split; [done|]. intros k Hk.
  cbn [snd objects log_request set_objects].
  apply list_elem_of_In, filter_In in Hx as [_ Hx].
  rewrite lookup_delete_ne by congruence. by apply Ho.
Qed.

Section UploadContent.

Variable denies : list request → request → bool.
Hypothesis Hno : never_denies denies.



End UploadContent.



(** X12.  However [upload_dir] ends, it leaves the local files as they
    were; and when it does not clear first, it deletes nothing: a key of
    the bucket keeps its object or is one of the keys [prefix/basename]
    the loop writes. *)
Theorem upload_dir_frame denies src_dir_local dest_dir (clear : bool) w :
  let w' := snd (Bucket.upload_dir denies src_dir_local dest_dir clear w) in
  files w' = files w
  ∧ (clear = false →
     ∀ k, objects w' !! k = objects w !! k
          ∨ (is_Some (objects w' !! k)
             ∧ ∃ fn, fn ∈ glob_paths (OsPath.join src_dir_local "*") (files w)
                     ∧ k = Str.strip "/" dest_dir +:+ "/" +:+ OsPath.basename fn)).
Proof.
  intros w'. subst w'. rewrite upload_dir_unfold.
  set (P := λ (w0 w1 : world),
         files w1 = files w0
         ∧ ∀ k, objects w1 !! k = objects w0 !! k
                ∨ (is_Some (objects w1 !! k)
                   ∧ ∃ fn, fn ∈ glob_paths (OsPath.join src_dir_local "*") (files w0)
                           ∧ k = Str.strip "/" dest_dir +:+ "/" +:+ OsPath.basename fn)).
  assert (∀ w0, P w0 (snd (for_each
                             (glob_paths (OsPath.join src_dir_local "*") (files w0))
                             (Bucket.upload_dir_body denies (Str.strip "/" dest_dir))
                             w0))) as Hloop.
  { intros w0. apply (for_each_invariant (P w0)); [|by split; [|left]].
    intros fn w1 Hfn [Hf Ho]. unfold Bucket.upload_dir_body.
    rewrite upload_file_cases.
    destruct (fs_lookup (files w1) fn) as [[data|]|]; [|done..].
    destruct (denies _ _); [done|]. destruct (String.eqb _ _); [done|].
    destruct (denies _ _); [done|].
    split; [done|]. intros k. cbn [snd objects].
    destruct (decide (Str.strip "/" dest_dir +:+ "/" +:+ OsPath.basename fn = k))
      as [<-|Hne].
    - right. rewrite lookup_insert_eq. split; [by eexists|]. by exists fn.
    - rewrite lookup_insert_ne by done. apply Ho. }
  destruct clear.
  - pose proof (bucket_clear_dir_keeps denies (Str.strip "/" dest_dir) w) as [Hfc _].
    destruct (Bucket.clear_dir denies (Str.strip "/" dest_dir) w) as [[e|[]] wc];
      cbn [snd] in *; [done|].
    split; [|done]. destruct (Hloop wc) as [-> _]. done.
  - rewrite ret_run. destruct (Hloop w) as [Hf Ho]. split; [done|]. by intros _.
Qed.

(** ** [Bucket.move_files] *)

Lemma move_keys_app s d l1 l2 o :
  move_keys s d (l1 ++ l2) o = move_keys s d l2 (move_keys s d l1 o).
Proof. revert o; induction l1 as [|k l1 IH]; intros o; [done|]. apply IH. Qed.

(** A key that is neither listed nor a destination keeps its object. *)
Lemma move_keys_frame s d ks : ∀ o x,
  x ∉ ks →
  (∀ k, k ∈ ks → is_marker s k = false → dest_key d k ≠ x) →
  move_keys s d ks o !! x = o !! x.
Proof.
  induction ks as [|k ks IH]; intros o x Hx Hdst; [done|].
  apply not_elem_of_cons in Hx as [Hne Hx].
  rewrite move_keys_cons, IH; [|done|].
  - unfold move_step. destruct (is_marker s k) eqn:Hm; [done|].
    destruct (o !! k); [|done].
    rewrite lookup_delete_ne by done. rewrite lookup_insert_ne; [done|].
    apply Hdst; [by left|done].
  - intros k' Hk'. apply Hdst. by right.
Qed.

Lemma basename_no_sep p : Str.contains "/" (OsPath.basename p) = false.
Proof.
  rewrite basename_final_segment.
  by destruct (final_segment_split p) as (_ & _ & H & _).
Qed.

(** X13.  When two keys of the source have the same base name, the one
    listed last wins.  Precisely: without refusals, when no destination
    starts with the source prefix, a listed key [k] that is not the marker
    and after which no listed key has the same destination ends up at
    [dest/basename] with the object it had, content type included. *)
Theorem move_files_last_writer_wins denies bucket_name src dst w l1 k l2
    (Hno : never_denies denies)
    (Hdst : ∀ k', is_Some (objects w !! k') →
                  Str.startswith (Str.strip "/" src) k' = true →
                  is_marker (Str.strip "/" src) k' = false →
                  Str.startswith (Str.strip "/" src)
                    (dest_key (Str.strip "/" dst) k') = false)
    (Hlist : List.filter (Str.startswith (Str.strip "/" src))
               (sorted_keys (objects w)) = l1 ++ k :: l2)
    (Hk : is_marker (Str.strip "/" src) k = false)
    (Hlast : ∀ k', k' ∈ l2 → is_marker (Str.strip "/" src) k' = false →
                   dest_key (Str.strip "/" dst) k' ≠ dest_key (Str.strip "/" dst) k) :
  objects (snd (Bucket.move_files denies bucket_name src dst false w))
    !! dest_key (Str.strip "/" dst) k
  = objects w !! k.
Proof.
  rewrite move_files_run; [|done|]; cycle 1.
  { intros k' [Hk' Hs']%listing_elem Hm' Heq.
    pose proof (Hdst k' Hk' Hs' Hm') as H. rewrite Heq in H. congruence. }
  cbn [snd objects]. rewrite Hlist.
  set (s := Str.strip "/" src) in *. set (d := Str.strip "/" dst) in *.
  pose proof (listing_NoDup (objects w) s) as Hnd. rewrite Hlist in Hnd.
  assert (∀ x, x ∈ l1 ++ k :: l2 → is_Some (objects w !! x) ∧ Str.startswith s x = true)
    as Hin by (intros x Hx; rewrite <- Hlist in Hx; by apply listing_elem).
  assert (∀ k' x, k' ∈ l1 ++ k :: l2 → is_marker s k' = false →
                  Str.startswith s x = true → dest_key d k' ≠ x) as Hfresh.
  { intros k' x Hk' Hm Hx <-. destruct (Hin k' Hk') as [Hp Hs].
    pose proof (Hdst k' Hp Hs Hm). congruence. }
  destruct (Hin k) as [[obj Hobj] Hsk]; [apply elem_of_app; right; by left|].
  apply NoDup_app in Hnd as (_ & Hl1 & [Hkl2 _]%NoDup_cons).
  rewrite move_keys_app, move_keys_cons.
  assert (move_keys s d l1 (objects w) !! k = Some obj) as Hk1.
  { rewrite move_keys_frame; [done| |].
    - intros Hkl1. by apply (Hl1 k Hkl1); left.
    - intros k' Hk' Hm. apply Hfresh; [apply elem_of_app; by left|done..]. }
  assert (dest_key d k ≠ k) as Hdk
    by (apply Hfresh; [apply elem_of_app; right; by left|done..]).
  rewrite move_keys_frame.
  - unfold move_step. rewrite Hk, Hk1, Hobj.
    rewrite lookup_delete_ne by (intros Heq; by apply Hdk).
    apply lookup_insert_eq.
  - intros Hd. destruct (Hin (dest_key d k)) as [_ Hs];
      [apply elem_of_app; right; by right|].
    by apply (Hfresh k (dest_key d k)); [apply elem_of_app; right; left|..].
  - done.
Qed.

Lemma move_files_last_writer_wins_witness :
  never_denies no_faults
  ∧ List.filter (Str.startswith (Str.strip "/" "a")) (sorted_keys (objects sample_world))
    = ["a/"; "a/sub/y.txt"] ++ "a/x.csv" :: ["ab/z.csv"]
  ∧ objects (snd (Bucket.move_files no_faults "bk" "a" "b" false sample_world))
      !! dest_key (Str.strip "/" "b") "a/x.csv"
    = objects sample_world !! "a/x.csv".
Proof.
  assert (List.filter (Str.startswith (Str.strip "/" "a"))
            (sorted_keys (objects sample_world))
          = ["a/"; "a/sub/y.txt"] ++ "a/x.csv" :: ["ab/z.csv"]) as Hlist
    by by vm_compute.
  assert (∀ k', is_Some (objects sample_world !! k') →
                Str.startswith (Str.strip "/" "a") k' = true →
                is_marker (Str.strip "/" "a") k' = false →
                Str.startswith (Str.strip "/" "a")
                  (dest_key (Str.strip "/" "b") k') = false) as Hdst
    by (intros k' _ _ _; by vm_compute).
  assert (∀ k', k' ∈ ["ab/z.csv"] → is_marker (Str.strip "/" "a") k' = false →
                dest_key (Str.strip "/" "b") k'
                ≠ dest_key (Str.strip "/" "b") "a/x.csv") as Hlast
    by (intros k' Hk' _; apply list_elem_of_singleton in Hk' as ->;
        apply String.eqb_neq; reflexivity).
  split; [exact no_faults_never_denies|]. split; [exact Hlist|].
  exact (move_files_last_writer_wins no_faults "bk" "a" "b" sample_world
           ["a/"; "a/sub/y.txt"] "a/x.csv" ["ab/z.csv"]
           no_faults_never_denies Hdst Hlist eq_refl Hlast).
Defined.

(** An earlier key with the same base name is overwritten: of [a/x.csv]
    and [a/sub/x.csv], only the content of the one listed last survives
    the move. *)
Example move_files_same_basename :
  let w := {| files := [];
              objects := list_to_map [("a/x.csv", S3Object "new" "text/csv");
                                      ("a/sub/x.csv", S3Object "old" "text/csv")];
              stdout := []; journal := [] |} in
  objects (snd (Bucket.move_files no_faults "bk" "a" "b" false w))
  = {[ "b/x.csv" := S3Object "new" "text/csv" ]}.
Proof. intros w. apply map_eq. intros k. by vm_compute. Qed.

Lemma bucket_clear_dir_journal denies p w r :
  r ∈ journal (snd (Bucket.clear_dir denies p w)) →
  r ∈ journal w ∨ r = S3ListObjects (Str.strip "/" p) ∨ ∃ k, r = S3DeleteObject k.
Proof.
  rewrite bucket_clear_dir_eq. destruct (denies _ _); [by left|].
  revert r.
  apply (for_each_invariant
           (λ w1, ∀ r, r ∈ journal w1 →
                       r ∈ journal w ∨ r = S3ListObjects (Str.strip "/" p)
                       ∨ ∃ k, r = S3DeleteObject k)).
  - intros x w1 _ Hw1 r. rewrite bucket_clear_dir_body_eq. cbv zeta.
    destruct (denies _ _); [apply Hw1|].
    cbn [snd journal log_request set_objects].
    intros [Hr|Hr%list_elem_of_singleton]%elem_of_app; [by apply Hw1|].
    right. right. by eexists.
  - intros r. cbn [journal log_request].
    intros [Hr|Hr%list_elem_of_singleton]%elem_of_app; [by left|]. right. by left.
Qed.

(** X14.  [move_files] flattens the source: however it ends, every copy it
    asks for goes from a key that starts with the stripped source prefix to
    [dest/basename], a key directly under the destination, whatever the
    depth of the source key. *)
Theorem move_files_flattens denies bucket_name src dst (clear : bool) w k x :
  S3CopyObject k x ∈ journal (snd (Bucket.move_files denies bucket_name src dst clear w)) →
  S3CopyObject k x ∈ journal w
  ∨ (Str.startswith (Str.strip "/" src) k = true
     ∧ x = Str.strip "/" dst +:+ "/" +:+ OsPath.basename k
     ∧ Str.contains "/" (OsPath.basename k) = false).
Proof.
  rewrite move_files_unfold.
  set (Post := λ w1 : world,
         S3CopyObject k x ∈ journal w1 →
         S3CopyObject k x ∈ journal w
         ∨ (Str.startswith (Str.strip "/" src) k = true
            ∧ x = Str.strip "/" dst +:+ "/" +:+ OsPath.basename k
            ∧ Str.contains "/" (OsPath.basename k) = false)).
  assert (∀ wc, Post wc →
            Post (snd (if denies (journal wc) (S3ListObjects (Str.strip "/" src))
                       then (inl (ClientError "AccessDenied"), wc)
                       else for_each
                              (List.filter (Str.startswith (Str.strip "/" src))
                                 (sorted_keys (objects wc)))
                              (Bucket.move_files_body denies bucket_name
                                 (Str.strip "/" src) (Str.strip "/" dst))
                              (log_request (S3ListObjects (Str.strip "/" src)) wc))))
    as Hloop.
  { intros wc Hwc. destruct (denies _ _); [done|].
    apply (for_each_invariant Post).
    - intros k0 w1 Hk0 Hw1. rewrite move_files_body_eq.
      apply list_elem_of_In, filter_In in Hk0 as [_ Hk0].
      destruct (is_marker _ k0); [done|]. cbv zeta.
      destruct (denies _ _); [done|].
      destruct (objects w1 !! k0); [|done].
      destruct (String.eqb _ _); [done|].
      assert (S3CopyObject k x ∈ journal w1 ++ [S3CopyObject k0 (dest_key (Str.strip "/" dst) k0)]
              → S3CopyObject k x ∈ journal w
                ∨ (Str.startswith (Str.strip "/" src) k = true
                   ∧ x = Str.strip "/" dst +:+ "/" +:+ OsPath.basename k
                   ∧ Str.contains "/" (OsPath.basename k) = false)) as Hcopy.
      { intros [Hr|Hr%list_elem_of_singleton]%elem_of_app; [by apply Hw1|].
        injection Hr as -> ->. right. split_and!; [done..|apply basename_no_sep]. }
      destruct (denies _ _); [exact Hcopy|].
      unfold Post. cbn [snd journal log_request set_objects].
      intros [Hr|Hr%list_elem_of_singleton]%elem_of_app; [by apply Hcopy|done].
    - unfold Post. cbn [journal log_request].
      intros [Hr|Hr%list_elem_of_singleton]%elem_of_app; [by apply Hwc|done]. }
  destruct clear.
  - pose proof (bucket_clear_dir_journal denies (Str.strip "/" dst) w
                  (S3CopyObject k x)) as Hclear.
    destruct (Bucket.clear_dir denies (Str.strip "/" dst) w) as [[e|[]] wc];
      cbn [snd] in *.
    + intros H. destruct (Hclear H) as [?|[?|[? ?]]]; [by left|done..].
    + apply Hloop. intros H. destruct (Hclear H) as [?|[?|[? ?]]]; [by left|done..].
  - rewrite ret_run. apply Hloop. by left.
Qed.

Lemma move_files_flattens_witness :
  S3CopyObject "a/sub/y.txt" "b/y.txt"
    ∈ journal (snd (Bucket.move_files no_faults "bk" "a" "b" false sample_world))
  ∧ (S3CopyObject "a/sub/y.txt" "b/y.txt" ∈ journal sample_world
     ∨ (Str.startswith (Str.strip "/" "a") "a/sub/y.txt" = true
        ∧ ("b/y.txt" : string) = Str.strip "/" "b" +:+ "/" +:+ OsPath.basename "a/sub/y.txt"
        ∧ Str.contains "/" (OsPath.basename "a/sub/y.txt") = false)).
Proof.
  assert (S3CopyObject "a/sub/y.txt" "b/y.txt"
            ∈ journal (snd (Bucket.move_files no_faults "bk" "a" "b" false sample_world)))
    as Hin.
  { vm_compute. right. by left. }
  split; [exact Hin|].
  exact (move_files_flattens no_faults "bk" "a" "b" false sample_world
           "a/sub/y.txt" "b/y.txt" Hin).
Defined.

(** X15.  However [move_files] ends, whether or not it clears first, it
    leaves the local files alone and does not touch a key that starts with
    neither the stripped source prefix nor the stripped destination
    prefix. *)
Theorem move_files_frame denies bucket_name src dst (clear : bool) w x
    (Hsrc : Str.startswith (Str.strip "/" src) x = false)
    (Hdst : Str.startswith (Str.strip "/" dst) x = false) :
  files (snd (Bucket.move_files denies bucket_name src dst clear w)) = files w
  ∧ objects (snd (Bucket.move_files denies bucket_name src dst clear w)) !! x
    = objects w !! x.
Proof.
  rewrite move_files_unfold.
  set (Post := λ w1 : world, files w1 = files w ∧ objects w1 !! x = objects w !! x).
  assert (∀ wc, Post wc →
            Post (snd (if denies (journal wc) (S3ListObjects (Str.strip "/" src))
                       then (inl (ClientError "AccessDenied"), wc)
                       else for_each
                              (List.filter (Str.startswith (Str.strip "/" src))
                                 (sorted_keys (objects wc)))
                              (Bucket.move_files_body denies bucket_name
                                 (Str.strip "/" src) (Str.strip "/" dst))
                              (log_request (S3ListObjects (Str.strip "/" src)) wc))))
    as Hloop.
  { intros wc Hwc. destruct (denies _ _); [done|].
    apply (for_each_invariant Post); [|done].
    intros k0 w1 Hk0 [Hf Ho]. rewrite move_files_body_eq.
    apply list_elem_of_In, filter_In in Hk0 as [_ Hk0].
    assert (k0 ≠ x) as Hk0x by congruence.
    assert (dest_key (Str.strip "/" dst) k0 ≠ x) as Hdx.
    { intros <-. unfold dest_key in Hdst.
      by rewrite StrFacts.startswith_append in Hdst. }
    destruct (is_marker _ k0); [done|]. cbv zeta.
    destruct (denies _ _); [done|].
    destruct (objects w1 !! k0); [|done].
    destruct (String.eqb _ _); [done|].
    destruct (denies _ _); (split; [done|]);
      cbn [snd objects log_request set_objects];
      rewrite ?lookup_delete_ne by done; by rewrite lookup_insert_ne. }
  destruct clear.
  - pose proof (bucket_clear_dir_keeps denies (Str.strip "/" dst) w) as [Hfc Hoc].
    rewrite strip_idem in Hoc. specialize (Hoc x Hdst).
    destruct (Bucket.clear_dir denies (Str.strip "/" dst) w) as [[e|[]] wc];
      cbn [snd] in *; [done|].
    by apply Hloop.
  - rewrite ret_run. by apply Hloop.
Qed.

Lemma move_files_frame_witness :
  Str.startswith (Str.strip "/" "a/") "z.txt" = false
  ∧ Str.startswith (Str.strip "/" "b") "z.txt" = false
  ∧ objects (snd (Bucket.move_files (deny_delete "a/x.csv") "bk" "a/" "b" true
                    sample_world)) !! "z.txt"
    = objects sample_world !! "z.txt".
Proof.
  split; [reflexivity|]. split; [reflexivity|].
  exact (proj2 (move_files_frame (deny_delete "a/x.csv") "bk" "a/" "b" true
                  sample_world "z.txt" eq_refl eq_refl)).
Defined.

(** ** [clear_dir] (module level) *)

(** X23.  For a directory path that holds no glob metacharacter, and an
    entry [name] of the directory (a single path component): however
    [clear_dir] ends, the entry is still there afterwards when it is a
    directory or its name starts with a dot; and when nothing is refused,
    [clear_dir] ends normally and a regular file whose name does not start
    with a dot is gone. *)
Theorem clear_dir_plain_directory denies dir_path name nd w
    (Hmagic : Glob.has_magic dir_path = false)
    (Hname : name ≠ "" ∧ Str.contains "/" name = false)
    (Hentry : fs_lookup (files w) (OsPath.join (glob_dir dir_path) name) = Some nd) :
  let path := OsPath.join (glob_dir dir_path) name in
  let w' := snd (clear_dir denies dir_path w) in
  (nd = Directory ∨ Str.startswith "." name = true →
   fs_lookup (files w') path = Some nd)
  ∧ (never_denies denies →
     fst (clear_dir denies dir_path w) = inr ()
     ∧ (nd ≠ Directory → Str.startswith "." name = false →
        fs_lookup (files w') path = None)).
Proof.
  intros path w'. subst w'. destruct Hname as [Hne Hsep].
  rewrite clear_dir_eq.
  pose proof (glob_paths_elem dir_path name (files w) Hmagic Hsep) as Hglob.
  fold path in Hglob, Hentry. split.
  - intros Hkeep. apply clear_dir_loop_keeps; [|done].
    destruct Hkeep as [->|Hdot]; [by left|right].
    rewrite Hglob. intros [_ Hstar]. unfold star_matches in Hstar.
    rewrite Hdot in Hstar. by rewrite andb_false_r in Hstar.
  - intros Hno.
    destruct (clear_dir_loop_run denies Hno
                (glob_paths (OsPath.join dir_path "*") (files w)) w)
      as (w1 & -> & Hw1).
    split; [done|]. intros Hfile Hdot. cbn [snd]. rewrite Hw1, Hentry.
    rewrite decide_True.
    + destruct nd; [done|by destruct Hfile].
    + apply Hglob. split; [by eapply fs_lookup_Some|].
      unfold star_matches. rewrite Hsep, Hdot.
      by destruct (String.eqb_spec name "").
Qed.

Lemma clear_dir_plain_directory_witness :
  Glob.has_magic "out/" = false
  ∧ (("a.txt" : string) ≠ "" ∧ Str.contains "/" "a.txt" = false)
  ∧ fs_lookup (files sample_world) (OsPath.join (glob_dir "out/") "a.txt")
    = Some (RegFile "A")
  ∧ fs_lookup (files (snd (clear_dir no_faults "out/" sample_world)))
      (OsPath.join (glob_dir "out/") "a.txt") = None.
Proof.
  assert (("a.txt" : string) ≠ "" ∧ Str.contains "/" "a.txt" = false) as Hname by done.
  split; [reflexivity|]. split; [exact Hname|]. split; [reflexivity|].
  destruct (clear_dir_plain_directory no_faults "out/" "a.txt" (RegFile "A")
              sample_world eq_refl Hname eq_refl) as [_ Hgone].
  destruct (Hgone no_faults_never_denies) as [_ Hnone].
  by apply Hnone.
Defined.

(** X16.  [clear_dir] is not recursive and stays in its directory.  For a
    directory path that holds no glob metacharacter: however the call ends,
    a path that is not [dir/name] for a visible [name] (an entry of a
    subdirectory, a hidden file, a file elsewhere) is as before; and the
    bucket is never touched. *)
Theorem clear_dir_frame denies dir_path path w
    (Hmagic : Glob.has_magic dir_path = false)
    (Hpath : ∀ name, star_matches name = true →
                     path ≠ OsPath.join (glob_dir dir_path) name) :
  objects (snd (clear_dir denies dir_path w)) = objects w
  ∧ fs_lookup (files (snd (clear_dir denies dir_path w))) path
    = fs_lookup (files w) path.
Proof.
  rewrite clear_dir_eq.
  apply (for_each_invariant
           (λ w1, objects w1 = objects w
                  ∧ fs_lookup (files w1) path = fs_lookup (files w) path)); [|done].
  intros fn w1 Hfn [Ho Hf]. rewrite clear_dir_body_eq.
  destruct (fs_lookup (files w1) fn) as [[data|]|]; [|done..].
  cbv zeta. destruct (denies _ _); [done|]. split; [done|].
  cbn [snd files log_request set_files]. rewrite fs_lookup_delete.
  destruct (String.eqb_spec fn path) as [->|]; [|done].
  apply glob_paths_form in Hfn as (name & Hname & Hm & _); [|done].
  by destruct (Hpath name Hm).
Qed.

Lemma clear_dir_frame_witness :
  Glob.has_magic "out" = false
  ∧ (∀ name, star_matches name = true →
             ("out/b/c.txt" : string) ≠ OsPath.join (glob_dir "out") name)
  ∧ fs_lookup (files (snd (clear_dir no_faults "out" sample_world))) "out/b/c.txt"
    = Some (RegFile "C").
Proof.
  assert (∀ name, star_matches name = true →
                  ("out/b/c.txt" : string) ≠ OsPath.join (glob_dir "out") name) as Hpath.
  { intros name Hm Heq. change (glob_dir "out") with "out" in Heq.
    pose proof (basename_join "out" name (star_matches_no_sep _ Hm)) as Hb.
    rewrite <- Heq in Hb. vm_compute in Hb. subst name.
    apply String.eqb_eq in Heq. vm_compute in Heq. discriminate Heq. }
  split; [reflexivity|]. split; [exact Hpath|].
  exact (proj2 (clear_dir_frame no_faults "out" "out/b/c.txt" sample_world
                  eq_refl Hpath)).
Defined.




Section LocalClearLog.

Variable denies : list request → request → bool.
Hypothesis Hno : never_denies denies.

(** Without refusals the loop removes the regular files among the paths it
    is given, each once, announcing each removal. *)
Lemma clear_dir_loop_log fns : ∀ w,
  ∃ w' removed,
    for_each fns (clear_dir_body denies) w = (inr (), w')
    ∧ stdout w' = stdout w ++ (String.append "deleting " <$> removed)
    ∧ journal w' = journal w ++ (FsRemove <$> removed)
    ∧ (∀ q, fs_lookup (files w') q
            = if decide (q ∈ removed) then None else fs_lookup (files w) q)
    ∧ (∀ fn, fn ∈ removed
             ↔ fn ∈ fns ∧ ∃ data, fs_lookup (files w) fn = Some (RegFile data)).
Proof.
  induction fns as [|h t IH]; intros w.
  - exists w, []. split_and!; [done|by rewrite app_nil_r..| |].
    + intros q. by rewrite decide_False by apply not_elem_of_nil.
    + intros fn. split; [by intros ?%elem_of_nil|by intros [?%elem_of_nil _]].
  - rewrite for_each_cons, clear_dir_body_eq.
    destruct (fs_lookup (files w) h) as [[data|]|] eqn:Hh.
    + cbv zeta. rewrite Hno.
      set (w1 := log_request _ _).
      destruct (IH w1) as (w' & removed & -> & Hout & Hj & Hlook & Hrem).
      assert (∀ q, fs_lookup (files w1) q
                   = if String.eqb h q then None else fs_lookup (files w) q)
        as Hw1 by (intros q; apply fs_lookup_delete).
      exists w', (h :: removed). split_and!; [done| | | |].
      * rewrite Hout. cbn. by rewrite <- app_assoc.
      * rewrite Hj. cbn. by rewrite <- app_assoc.
      * intros q. rewrite Hlook, Hw1.
        destruct (String.eqb_spec h q) as [->|Hne].
        -- rewrite (decide_True (P := q ∈ q :: removed)) by left.
           by destruct (decide _).
        -- destruct (decide (q ∈ removed)) as [Hin|Hnin].
           ++ by rewrite decide_True by by right.
           ++ rewrite decide_False; [done|]. by intros [?|?]%elem_of_cons.
      * intros fn. rewrite elem_of_cons, Hrem, Hw1, elem_of_cons.
        destruct (String.eqb_spec h fn) as [->|Hne].
        -- split; [intros _|by left]. split; [by left|by eexists].
        -- split.
           ++ intros [->|[Hfn Hreg]]; [done|]. split; [by right|done].
           ++ intros [[->|Hfn] Hreg]; [done|]. right. by split.
    + destruct (IH w) as (w' & removed & -> & Hout & Hj & Hlook & Hrem).
      exists w', removed. split_and!; [done..|].
      intros fn. rewrite Hrem, elem_of_cons. split; [intros [? ?]; by split; [right|]|].
      intros [[->|Hfn] [data' Hreg]]; [congruence|]. split; [done|by eexists].
    + destruct (IH w) as (w' & removed & -> & Hout & Hj & Hlook & Hrem).
      exists w', removed. split_and!; [done..|].
      intros fn. rewrite Hrem, elem_of_cons. split; [intros [? ?]; by split; [right|]|].
      intros [[->|Hfn] [data' Hreg]]; [congruence|]. split; [done|by eexists].
Qed.

End LocalClearLog.

(** X18.  For a directory path that holds no glob metacharacter: when
    nothing is refused, [clear_dir] removes exactly the visible regular
    files of the directory, asks for nothing else, and prints one
    [deleting] line per removed file, in the order of removal. *)
Theorem clear_dir_log denies dir_path w
    (Hno : never_denies denies)
    (Hmagic : Glob.has_magic dir_path = false) :
  ∃ removed,
    stdout (snd (clear_dir denies dir_path w))
    = stdout w ++ (String.append "deleting " <$> removed)
    ∧ journal (snd (clear_dir denies dir_path w))
      = journal w ++ (FsRemove <$> removed)
    ∧ ∀ fn, fn ∈ removed
            ↔ (∃ name, fn = OsPath.join (glob_dir dir_path) name
                       ∧ star_matches name = true)
              ∧ ∃ data, fs_lookup (files w) fn = Some (RegFile data).
Proof.
  rewrite clear_dir_eq.
  destruct (clear_dir_loop_log denies Hno
              (glob_paths (OsPath.join dir_path "*") (files w)) w)
    as (w' & removed & -> & Hout & Hj & _ & Hrem).
  exists removed. split_and!; [done..|]. intros fn. rewrite Hrem. split.
  - intros [Hfn Hreg]. apply glob_paths_form in Hfn as (name & -> & Hm & _); [|done].
    split; [by exists name|done].
  - intros [(name & -> & Hm) [data Hreg]]. split; [|by eexists].
    apply glob_paths_form; [done|]. exists name. split_and!; [done..|]. by eexists.
Qed.

Lemma clear_dir_log_witness :
  never_denies no_faults
  ∧ Glob.has_magic "out" = false
  ∧ ∃ removed,
      stdout (snd (clear_dir no_faults "out" sample_world))
      = stdout sample_world ++ (String.append "deleting " <$> removed)
      ∧ journal (snd (clear_dir no_faults "out" sample_world))
        = journal sample_world ++ (FsRemove <$> removed).
Proof.
  split; [exact no_faults_never_denies|]. split; [reflexivity|].
  destruct (clear_dir_log no_faults "out" sample_world no_faults_never_denies eq_refl)
    as (removed & Hout & Hj & _).
  by exists removed.
Defined.

(** ** Nothing to do *)




(** X20.  Moving a prefix that no key of the bucket has is not an error:
    [move_files] without clearing lists the prefix and returns, leaving
    bucket and output as they were (or raises if the listing is
    refused). *)
Theorem move_files_nothing_to_move denies bucket_name src dst w
    (Hnone : ∀ k, is_Some (objects w !! k) →
                  Str.startswith (Str.strip "/" src) k = false) :
  Bucket.move_files denies bucket_name src dst false w
  = if denies (journal w) (S3ListObjects (Str.strip "/" src))
    then (inl (ClientError "AccessDenied"), w)
    else (inr (), log_request (S3ListObjects (Str.strip "/" src)) w).
Proof.
  rewrite move_files_unfold, ret_run.
  assert (List.filter (Str.startswith (Str.strip "/" src)) (sorted_keys (objects w)) = [])
    as ->; [|done].
  apply elem_of_nil_inv. intros k [Hk Hs]%listing_elem.
  rewrite (Hnone k Hk) in Hs. discriminate Hs.
Qed.

Lemma move_files_nothing_to_move_witness :
  (∀ k, is_Some (objects sample_world !! k) →
        Str.startswith (Str.strip "/" "q") k = false)
  ∧ Bucket.move_files no_faults "bk" "q" "b" false sample_world
    = (inr (), log_request (S3ListObjects "q") sample_world).
Proof.
  assert (∀ k, is_Some (objects sample_world !! k) →
               Str.startswith (Str.strip "/" "q") k = false) as Hnone.
  { intros k Hk. apply sorted_keys_elem in Hk. elem_cases Hk; reflexivity. }
  split; [exact Hnone|].
  exact (move_files_nothing_to_move no_faults "bk" "q" "b" sample_world Hnone).
Defined.

(** ** [Bucket.move_files] with [clear_dest=True] *)

(** An object present after the keys [ks] have been moved was there before
    or is the destination of one of them. *)
Lemma move_keys_origin s d ks : ∀ o x,
  is_Some (move_keys s d ks o !! x) →
  is_Some (o !! x) ∨ ∃ k, k ∈ ks ∧ is_marker s k = false ∧ x = dest_key d k.
Proof.
  induction ks as [|k ks IH]; intros o x Hx; [by left|].
  rewrite move_keys_cons in Hx. destruct (IH _ _ Hx) as [Hstep|(k' & Hk' & Hm & ->)].
  - unfold move_step in Hstep. destruct (is_marker s k) eqn:Hm; [by left|].
    destruct (o !! k) as [obj|]; [|by left].
    destruct (decide (x = k)) as [->|Hne];
      [rewrite lookup_delete_eq in Hstep; by apply is_Some_None in Hstep|].
    rewrite lookup_delete_ne in Hstep by done.
    destruct (decide (dest_key d k = x)) as [<-|Hd].
    + right. exists k. split_and!; [by left|done..].
    + left. by rewrite lookup_insert_ne in Hstep.
  - right. exists k'. split_and!; [by right|done..].
Qed.

(** X21.  With [clear_dest=True], when nothing is refused, no source key
    starts with the destination prefix and no destination starts with the
    source prefix: [move_files] ends normally, and the keys that start with
    the stripped destination prefix are then exactly the destinations
    [dest/basename] of the source keys; what the destination held before is
    gone. *)
Theorem move_files_clear_dest denies bucket_name src dst w
    (Hno : never_denies denies)
    (Hsd : ∀ k, is_Some (objects w !! k) →
                Str.startswith (Str.strip "/" src) k = true →
                Str.startswith (Str.strip "/" dst) k = false)
    (Hdst : ∀ k, is_Some (objects w !! k) →
                 Str.startswith (Str.strip "/" src) k = true →
                 is_marker (Str.strip "/" src) k = false →
                 Str.startswith (Str.strip "/" src)
                   (dest_key (Str.strip "/" dst) k) = false) :
  fst (Bucket.move_files denies bucket_name src dst true w) = inr ()
  ∧ ∀ x, Str.startswith (Str.strip "/" dst) x = true →
         (is_Some (objects (snd (Bucket.move_files denies bucket_name src dst true w))
                   !! x)
          ↔ ∃ k, is_Some (objects w !! k)
                 ∧ Str.startswith (Str.strip "/" src) k = true
                 ∧ is_marker (Str.strip "/" src) k = false
                 ∧ x = dest_key (Str.strip "/" dst) k).
Proof.
  set (s := Str.strip "/" src) in *. set (d := Str.strip "/" dst) in *.
  pose proof (clear_dir_lookup denies Hno d w) as Hclear.
  unfold d at 2 in Hclear. rewrite strip_idem in Hclear. fold d in Hclear.
  rewrite move_files_unfold. fold s d.
  destruct (Bucket.clear_dir denies d w) as [r wc] eqn:Hrun.
  assert (r = inr ()) as -> by (rewrite clear_dir_run in Hrun by done; congruence).
  cbn [snd] in Hclear. rewrite Hno.
  set (ks := List.filter (Str.startswith s) (sorted_keys (objects wc))).
  assert (∀ k, k ∈ ks ↔ is_Some (objects w !! k) ∧ Str.startswith s k = true) as Hks.
  { intros k. unfold ks. rewrite listing_elem, Hclear. split.
    - intros [Hk Hs]. split; [|done]. by destruct (Str.startswith d k).
    - intros [Hk Hs]. split; [|done]. by rewrite (Hsd k Hk Hs). }
  assert (∀ k, k ∈ ks → is_Some (objects wc !! k)) as Hpres
    by (intros k Hk; by apply listing_elem in Hk as [? _]).
  assert (∀ k, k ∈ ks → is_marker s k = false → dest_key d k ≠ k) as Hself.
  { intros k [Hk Hs]%Hks Hm Heq. pose proof (Hdst k Hk Hs Hm) as H.
    rewrite Heq in H. congruence. }
  rewrite (move_files_loop denies Hno bucket_name s d ks
             (log_request (S3ListObjects s) wc) (listing_NoDup _ _) Hpres Hself).
  split; [done|]. intros x Hx. cbn [snd objects log_request]. split.
  - intros [Hwc|(k & Hk & Hm & ->)]%move_keys_origin.
    + rewrite Hclear, Hx in Hwc. by apply is_Some_None in Hwc.
    + apply Hks in Hk as [Hk Hs]. by exists k.
  - intros (k & Hk & Hs & Hm & ->).
    apply move_keys_dest_exists; [apply listing_NoDup|exact Hpres| |done|].
    + apply Hks. by split.
    + intros [Hd1 Hd2]%Hks. pose proof (Hdst k Hk Hs Hm). congruence.
Qed.

Lemma move_files_clear_dest_witness :
  never_denies no_faults
  ∧ is_Some (objects sample_world !! "z.txt")
  ∧ objects (snd (Bucket.move_files no_faults "bk" "ab" "z.txt" true sample_world))
      !! "z.txt" = None
  ∧ is_Some (objects (snd (Bucket.move_files no_faults "bk" "ab" "z.txt" true
                             sample_world)) !! "z.txt/z.csv").
Proof.
  assert (∀ k, is_Some (objects sample_world !! k) →
               Str.startswith (Str.strip "/" "ab") k = true →
               Str.startswith (Str.strip "/" "z.txt") k = false) as Hsd.
  { intros k Hk Hs. apply sorted_keys_elem in Hk.
    elem_cases Hk; first [reflexivity | vm_compute in Hs; discriminate Hs]. }
  assert (∀ k, is_Some (objects sample_world !! k) →
               Str.startswith (Str.strip "/" "ab") k = true →
               is_marker (Str.strip "/" "ab") k = false →
               Str.startswith (Str.strip "/" "ab")
                 (dest_key (Str.strip "/" "z.txt") k) = false) as Hdst
    by (intros k _ _ _; vm_compute; reflexivity).
  destruct (move_files_clear_dest no_faults "bk" "ab" "z.txt" sample_world
              no_faults_never_denies Hsd Hdst) as [_ Hkeys].
  assert (is_Some (objects sample_world !! "z.txt")) as Hz
    by (vm_compute; by eexists).
  split; [exact no_faults_never_denies|]. split; [exact Hz|]. split.
  - apply eq_None_not_Some. intros Hsome.
    apply (Hkeys "z.txt" eq_refl) in Hsome as (k & Hk & _ & _ & Heq).
    apply sorted_keys_elem in Hk. apply String.eqb_eq in Heq.
    elem_cases Hk; vm_compute in Heq; discriminate Heq.
  - apply (Hkeys "z.txt/z.csv" eq_refl). exists "ab/z.csv".
    split; [vm_compute; by eexists|]. split_and!; reflexivity.
Defined.

(** ** What [Bucket.clear_dir] reports *)

(** X22.  When nothing is refused, [Bucket.clear_dir] asks for one listing
    and then one delete per key that was in the bucket and starts with the
    stripped prefix, each key once, and prints one [deleting] line per key
    in the same order; the local files are not touched. *)
Theorem bucket_clear_dir_log denies p w
    (Hno : never_denies denies) :
  ∃ ks,
    NoDup ks
    ∧ (∀ k, k ∈ ks ↔ is_Some (objects w !! k)
                     ∧ Str.startswith (Str.strip "/" p) k = true)
    ∧ Bucket.clear_dir denies p w
      = (inr (), {| files := files w;
                    objects := delete_keys ks (objects w);
                    stdout := stdout w ++ (String.append "deleting " <$> ks);
                    journal := journal w ++ S3ListObjects (Str.strip "/" p)
                                 :: (S3DeleteObject <$> ks) |}).
Proof.
  exists (List.filter (Str.startswith (Str.strip "/" p)) (sorted_keys (objects w))).
  split_and!; [apply listing_NoDup|apply listing_elem|by apply clear_dir_run].
Qed.

Lemma bucket_clear_dir_log_witness :
  never_denies no_faults
  ∧ ∃ ks, Bucket.clear_dir no_faults "a/sub" sample_world
          = (inr (), {| files := files sample_world;
                        objects := delete_keys ks (objects sample_world);
                        stdout := stdout sample_world ++ (String.append "deleting " <$> ks);
                        journal := journal sample_world
                                   ++ S3ListObjects (Str.strip "/" "a/sub")
                                   :: (S3DeleteObject <$> ks) |}).
Proof.
  split; [exact no_faults_never_denies|].
  destruct (bucket_clear_dir_log no_faults "a/sub" sample_world no_faults_never_denies)
    as (ks & _ & _ & Hrun).
  by exists ks.
Defined.
